(** * The conversation hook of the chat frontend (frontend/hooks/useChat.ts)

    A shallow embedding of [useChat]: the conversation state, the four
    message helpers ([addUserMessage], [addLoadingMessage], [resolveMessage],
    [failMessage]) and the public actions ([submitQuery],
    [submitClarification], [retryLast], [clearChat]), and of the chat
    components that call it (ChatInput, ClarificationBox, QueryBlock with
    FailureCard, and their wiring in ChatContainer), followed by the
    properties of the hook that the specification states and by further
    properties of the hook and of the components.

    React's [useState] cells are a record ([Hook]); a callback is an action
    of a small state monad over that record, and every [setState(prev => ...)]
    is the functional update it is in the source.  An [async] action is cut
    at its single [await]: the part before it returns the request it has
    issued, the part after it ([resume]) takes the outcome of the promise.
    [Math.random] and [new Date()] are inputs of the actions that read them. *)

From Stdlib Require Import List String Ascii ZArith Bool Arith Lia.
Import ListNotations.
Local Open Scope string_scope.
Local Open Scope list_scope.

(** ** Data model (lib/types, as used by the hook and the chat components) *)

Record Citation := {
  source : option string;
  page : option Z;
  doc_id : option string;
  snippet : option string
}.

(** The statuses come off the wire as plain strings and are compared with
    [===]; nothing validates them, so they stay strings here. *)
Record SubAnswer := {
  query : string;
  sa_status : string;
  answer : string;
  citations : list Citation;
  clarification_question : option string
}.

Record QueryResponse := {
  conversation_id : string;
  status : string;
  sub_answers : list SubAnswer;
  error_message : option string
}.

Inductive Role := user | assistant.

Definition role_eqb (a b : Role) : bool :=
  match a, b with
  | user, user | assistant, assistant => true
  | _, _ => false
  end.

(** [isLoading] and [response] are optional fields: a user message is built
    without either. [timestamp] is the [Date] as milliseconds. *)
Record ChatMessage := {
  id : string;
  role : Role;
  content : string;
  timestamp : Z;
  isLoading : option bool;
  response : option QueryResponse
}.

Record ConversationState := {
  messages : list ChatMessage;
  conversationId : option string;
  pendingClarificationIndex : option Z
}.

(** The three [useState] cells of the hook. *)
Record Hook := {
  state : ConversationState;
  loading : bool;
  error : option string
}.

Definition emptyState : ConversationState :=
  {| messages := []; conversationId := None; pendingClarificationIndex := None |}.

Definition initialHook : Hook :=
  {| state := emptyState; loading := false; error := None |}.

(** ** Actions on the hook *)

Definition Act (A : Type) : Type := Hook -> A * Hook.

Definition ret {A} (a : A) : Act A := fun h => (a, h).

Definition bind {A B} (c : Act A) (k : A -> Act B) : Act B :=
  fun h => let (a, h') := c h in k a h'.

Notation "x <- c ;; k" := (bind c (fun x => k))
  (at level 61, c at next level, right associativity).
Notation "c ;; k" := (bind c (fun _ => k))
  (at level 61, right associativity).

Definition exec {A} (c : Act A) (h : Hook) : Hook := snd (c h).
Definition eval {A} (c : Act A) (h : Hook) : A := fst (c h).

(** The state the callback's closure sees when it is called. *)
Definition rendered : Act Hook := fun h => (h, h).

Definition setState (f : ConversationState -> ConversationState) : Act unit :=
  fun h => (tt, {| state := f (state h); loading := loading h; error := error h |}).

Definition setLoading (b : bool) : Act unit :=
  fun h => (tt, {| state := state h; loading := b; error := error h |}).

Definition setError (e : option string) : Act unit :=
  fun h => (tt, {| state := state h; loading := loading h; error := e |}).

(** ** Helpers *)

(** [Math.random().toString(36).slice(2, 10)]: [rnd] is the base-36 text of
    the random number, of which the characters 2 to 9 are kept. *)
Definition makeId (rnd : string) : string := substring 2 8 rnd.

(** [Array.prototype.findIndex]: the first index whose element satisfies
    [p], and [-1] when there is none. *)
Fixpoint findIndexFrom {A} (p : A -> bool) (i : Z) (l : list A) : Z :=
  match l with
  | [] => (-1)%Z
  | x :: l' => if p x then i else findIndexFrom p (i + 1)%Z l'
  end.

Definition findIndex {A} (p : A -> bool) (l : list A) : Z := findIndexFrom p 0%Z l.

Definition userMessage (i : string) (c : string) (now : Z) : ChatMessage :=
  {| id := i; role := user; content := c; timestamp := now;
     isLoading := None; response := None |}.

Definition loadingMessage (i : string) (now : Z) : ChatMessage :=
  {| id := i; role := assistant; content := ""; timestamp := now;
     isLoading := Some true; response := None |}.

Definition appendMessage (m : ChatMessage) (prev : ConversationState) : ConversationState :=
  {| messages := messages prev ++ [m];
     conversationId := conversationId prev;
     pendingClarificationIndex := pendingClarificationIndex prev |}.

Definition addUserMessage (rnd : string) (now : Z) (c : string) : Act string :=
  let i := makeId rnd in
  setState (appendMessage (userMessage i c now)) ;;
  ret i.

Definition addLoadingMessage (rnd : string) (now : Z) : Act string :=
  let i := makeId rnd in
  setState (appendMessage (loadingMessage i now)) ;;
  ret i.

(** [response.sub_answers[0]?.answer ?? ""] *)
Definition firstAnswer (r : QueryResponse) : string :=
  match sub_answers r with
  | sa :: _ => answer sa
  | [] => ""
  end.

Definition isClarification (sa : SubAnswer) : bool :=
  sa_status sa =? "clarification_required".

Definition resolveOne (i : string) (r : QueryResponse) (m : ChatMessage) : ChatMessage :=
  if id m =? i
  then {| id := id m; role := role m; content := firstAnswer r;
          timestamp := timestamp m; isLoading := Some false; response := Some r |}
  else m.

Definition resolveState (i : string) (r : QueryResponse) (prev : ConversationState)
  : ConversationState :=
  {| messages := map (resolveOne i r) (messages prev);
     conversationId := Some (conversation_id r);
     pendingClarificationIndex :=
       if status r =? "clarification_required"
       then Some (findIndex isClarification (sub_answers r))
       else None |}.

Definition resolveMessage (i : string) (r : QueryResponse) : Act unit :=
  setState (resolveState i r).

Definition failedSubAnswer (errText : string) : SubAnswer :=
  {| query := ""; sa_status := "failed"; answer := errText; citations := [];
     clarification_question := None |}.

(** The response [failMessage] synthesizes; [prev.conversationId ?? ""]. *)
Definition failureResponse (conv : option string) (errText : string) : QueryResponse :=
  {| conversation_id := match conv with Some c => c | None => "" end;
     status := "failure";
     sub_answers := [failedSubAnswer errText];
     error_message := None |}.

Definition failOne (i : string) (resp : QueryResponse) (m : ChatMessage) : ChatMessage :=
  if id m =? i
  then {| id := id m; role := role m; content := content m;
          timestamp := timestamp m; isLoading := Some false; response := Some resp |}
  else m.

Definition failState (i : string) (errText : string) (prev : ConversationState)
  : ConversationState :=
  {| messages := map (failOne i (failureResponse (conversationId prev) errText))
                     (messages prev);
     conversationId := conversationId prev;
     pendingClarificationIndex := pendingClarificationIndex prev |}.

Definition failMessage (i : string) (errText : string) : Act unit :=
  setState (failState i errText).

(** ** Public actions *)

(** What the two operations of the Query API are called with. *)
Inductive Request :=
| SendQuery (prompt : string) (conv : option string) (pdfPath : option string)
| SendClarification (conv : string) (subAnswerIndex : Z) (ans : string).

(** A request that is awaited, with the placeholder it will settle. *)
Record InFlight := { loadId : string; request : Request }.

(** A rejection carries an [Error] with its message, or anything else. *)
Inductive Thrown := ErrorInstance (message : string) | OtherValue.

Inductive Outcome := Fulfilled (resp : QueryResponse) | Rejected (e : Thrown).

(** The random numbers and clock readings one submission consumes. *)
Record Draws := { rndUser : string; nowUser : Z; rndLoad : string; nowLoad : Z }.

(** [e instanceof Error ? e.message : "Unknown error"] *)
Definition errorText (e : Thrown) : string :=
  match e with
  | ErrorInstance msg => msg
  | OtherValue => "Unknown error"
  end.

(** The code after the [await] of [submitQuery] and [submitClarification]:
    the rest of [try], then [catch] and [finally]. *)
Definition resume (lid : string) (o : Outcome) : Act unit :=
  match o with
  | Fulfilled resp => resolveMessage lid resp
  | Rejected e =>
      let msg := errorText e in
      setError (Some msg) ;;
      failMessage lid msg
  end ;;
  setLoading false.

(** [submitQuery] up to its [await]. *)
Definition submitQuery (d : Draws) (prompt : string) (pdfPath : option string)
  : Act InFlight :=
  h0 <- rendered ;;
  setError None ;;
  addUserMessage (rndUser d) (nowUser d) prompt ;;
  lid <- addLoadingMessage (rndLoad d) (nowLoad d) ;;
  setLoading true ;;
  ret {| loadId := lid;
         request := SendQuery prompt (conversationId (state h0)) pdfPath |}.

(** [!state.conversationId]: undefined and the empty string are both falsy. *)
Definition truthy (s : option string) : option string :=
  match s with
  | Some c => if c =? "" then None else Some c
  | None => None
  end.

(** [submitClarification] up to its [await]; [None] is the early [return]. *)
Definition submitClarification (d : Draws) (ans : string) : Act (option InFlight) :=
  h0 <- rendered ;;
  match truthy (conversationId (state h0)), pendingClarificationIndex (state h0) with
  | Some conv, Some idx =>
      setError None ;;
      addUserMessage (rndUser d) (nowUser d) ("Clarification: " ++ ans)%string ;;
      lid <- addLoadingMessage (rndLoad d) (nowLoad d) ;;
      setLoading true ;;
      ret (Some {| loadId := lid; request := SendClarification conv idx ans |})
  | _, _ => ret None
  end.

Definition isUser (m : ChatMessage) : bool := role_eqb (role m) user.

(** [retryLast] up to the [await] inside the [submitQuery] it calls. *)
Definition retryLast (d : Draws) : Act (option InFlight) :=
  h0 <- rendered ;;
  match find isUser (rev (messages (state h0))) with
  | Some lastUser =>
      p <- submitQuery d (content lastUser) None ;;
      ret (Some p)
  | None => ret None
  end.

Definition clearChat : Act unit :=
  setState (fun _ => emptyState) ;;
  setError None.

Definition hasPendingClarification (h : Hook) : bool :=
  match pendingClarificationIndex (state h) with
  | Some _ => true
  | None => false
  end.

(** ** Runs of the hook

    Between two events React re-renders, so every callback is called on the
    state its closure shows. A world is the hook together with the requests
    that are awaited; an event is a call of a public action or the settling
    of one awaited request, in any order. *)

Record World := { hook : Hook; inflight : list InFlight }.

Definition initialWorld : World := {| hook := initialHook; inflight := [] |}.

Inductive Event :=
| CallSubmitQuery (d : Draws) (prompt : string) (pdfPath : option string)
| CallSubmitClarification (d : Draws) (ans : string)
| CallRetryLast (d : Draws)
| CallClearChat
| Settle (k : nat) (o : Outcome).

Fixpoint removeNth {A} (k : nat) (l : list A) : list A :=
  match k, l with
  | _, [] => []
  | O, _ :: l' => l'
  | S k', x :: l' => x :: removeNth k' l'
  end.

Definition awaiting (w : World) (r : option InFlight * Hook) : World :=
  {| hook := snd r;
     inflight := inflight w ++ match fst r with Some p => [p] | None => [] end |}.

Definition step (w : World) (e : Event) : World :=
  match e with
  | CallSubmitQuery d prompt pdfPath =>
      awaiting w ((p <- submitQuery d prompt pdfPath ;; ret (Some p)) (hook w))
  | CallSubmitClarification d ans =>
      awaiting w (submitClarification d ans (hook w))
  | CallRetryLast d =>
      awaiting w (retryLast d (hook w))
  | CallClearChat =>
      {| hook := exec clearChat (hook w); inflight := inflight w |}
  | Settle k o =>
      match nth_error (inflight w) k with
      | Some p => {| hook := exec (resume (loadId p) o) (hook w);
                     inflight := removeNth k (inflight w) |}
      | None => w
      end
  end.

Definition run (es : list Event) (w : World) : World := fold_left step es w.

(** The ids the calls of a run draw. *)
Definition drawn (d : Draws) : list string := [makeId (rndUser d); makeId (rndLoad d)].

Definition drawnBy (e : Event) : list string :=
  match e with
  | CallSubmitQuery d _ _ | CallSubmitClarification d _ | CallRetryLast d => drawn d
  | CallClearChat | Settle _ _ => []
  end.

Definition drawnIds (es : list Event) : list string := flat_map drawnBy es.

(** Runs made of [submitQuery] calls and of settlements only. *)
Inductive QueryEvent :=
| Submit (d : Draws) (prompt : string) (pdfPath : option string)
| Completes (k : nat) (o : Outcome).

Definition queryEvent (q : QueryEvent) : Event :=
  match q with
  | Submit d prompt pdfPath => CallSubmitQuery d prompt pdfPath
  | Completes k o => Settle k o
  end.

Definition isSubmit (q : QueryEvent) : bool :=
  match q with Submit _ _ _ => true | Completes _ _ => false end.

Definition submissions (qs : list QueryEvent) : nat := List.length (filter isSubmit qs).

(** ** Sample values *)

Definition noDraws : Draws :=
  {| rndUser := "0.4fzyo82mvyr"; nowUser := 1700000000000%Z;
     rndLoad := "0.9x3k1q7bd2p"; nowLoad := 1700000000001%Z |}.

(** Two different random numbers with the same first eight digits. *)
Definition clashingDraws : Draws :=
  {| rndUser := "0.abcdefgh1"; nowUser := 1700000000000%Z;
     rndLoad := "0.abcdefgh2"; nowLoad := 1700000000001%Z |}.

Definition answeredResponse : QueryResponse :=
  {| conversation_id := "c1"; status := "answered";
     sub_answers := [ {| query := "What is HyDE?"; sa_status := "answered";
                         answer := "HyDE generates a hypothetical document...";
                         citations := []; clarification_question := None |} ];
     error_message := None |}.

(** A response that asks for a clarification in none of its sub-answers. *)
Definition unmatchedClarification : QueryResponse :=
  {| conversation_id := "c1"; status := "clarification_required";
     sub_answers := [ {| query := "revenue"; sa_status := "answered";
                         answer := "42"; citations := [];
                         clarification_question := None |} ];
     error_message := None |}.

(** A clarification request of a backend whose conversation id is empty. *)
Definition anonymousClarification : QueryResponse :=
  {| conversation_id := ""; status := "clarification_required";
     sub_answers := [ {| query := "revenue"; sa_status := "clarification_required";
                         answer := ""; citations := [];
                         clarification_question := Some "Which year?" |} ];
     error_message := None |}.

(** ** Ids in a world *)

Definition msgIds (w : World) : list string := map id (messages (state (hook w))).

Definition loadIds (w : World) : list string := map loadId (inflight w).

(** The world right after a submission has appended its two messages and
    issued [req]. *)
Definition begins (w : World) (d : Draws) (c : string) (req : Request) : World :=
  {| hook :=
       {| state := appendMessage (loadingMessage (makeId (rndLoad d)) (nowLoad d))
                     (appendMessage (userMessage (makeId (rndUser d)) c (nowUser d))
                        (state (hook w)));
          loading := true; error := None |};
     inflight := inflight w ++ [ {| loadId := makeId (rndLoad d); request := req |} ] |}.

(** What a run keeps true as long as the ids still to be drawn ([future])
    are new: message ids differ, awaited requests have different
    placeholders, and a message that an awaited request points to is the
    placeholder as [addLoadingMessage] made it. *)
Record consistent (w : World) (future : list string) : Prop := {
  ids_distinct : NoDup (msgIds w);
  loads_distinct : NoDup (loadIds w);
  placeholders :
    forall m p, In m (messages (state (hook w))) -> In p (inflight w) ->
                id m = loadId p -> m = loadingMessage (loadId p) (timestamp m);
  future_distinct : NoDup future;
  future_fresh : forall i, In i future -> ~ In i (msgIds w) /\ ~ In i (loadIds w)
}.

(** ** Observations on runs *)

(** What of a message no update ever rewrites. *)
Definition skeleton (m : ChatMessage) : string * Role * Z := (id m, role m, timestamp m).

(** [isLoading] as a condition: an absent field is falsy. *)
Definition stillLoading (m : ChatMessage) : bool :=
  match isLoading m with
  | Some b => b
  | None => false
  end.

Definition isClear (e : Event) : bool :=
  match e with CallClearChat => true | _ => false end.

Definition noClear (es : list Event) : bool := forallb (fun e => negb (isClear e)) es.

(** The conversation ids of the responses a run delivers. *)
Definition deliveredBy (e : Event) : list string :=
  match e with
  | Settle _ (Fulfilled r) => [conversation_id r]
  | _ => []
  end.

Definition deliveredIds (es : list Event) : list string := flat_map deliveredBy es.

(** The conversation id a request carries. *)
Definition requestConv (req : Request) : option string :=
  match req with
  | SendQuery _ conv _ => conv
  | SendClarification conv _ _ => Some conv
  end.

(** ** The chat components (components/chat)

    The components that call the hook. A component is the function from
    its props and local state to what it renders and to what its handlers
    do; of the rendered tree the children and their props are kept, the
    styling is not. *)

(** [String.prototype.trim]: the characters for which [ws] holds (white
    space and line terminators) are stripped from both ends. *)
Fixpoint trimStart (ws : ascii -> bool) (s : string) : string :=
  match s with
  | EmptyString => EmptyString
  | String c s' => if ws c then trimStart ws s' else s
  end.

Fixpoint trimEnd (ws : ascii -> bool) (s : string) : string :=
  match s with
  | EmptyString => EmptyString
  | String c s' =>
      match trimEnd ws s' with
      | EmptyString => if ws c then EmptyString else String c EmptyString
      | t => String c t
      end
  end.

Definition trim (ws : ascii -> bool) (s : string) : string := trimEnd ws (trimStart ws s).

(** *** ChatInput *)

(** [submit]: the argument [onSubmit] is called with, if it is called, and
    the [value] afterwards. *)
Definition ChatInput_submit (ws : ascii -> bool) (disabled : bool) (value : string)
  : option string * string :=
  let trimmed := trim ws value in
  if (trimmed =? "") || disabled then (None, value)
  else (Some trimmed, "").

Definition ChatInput_blocked (hasPending disabled : bool) : bool :=
  hasPending && negb disabled.

(** [onKeyDown] of the textarea. *)
Definition ChatInput_onKeyDown (ws : ascii -> bool) (key : string) (shiftKey : bool)
           (disabled : bool) (value : string) : option string * string :=
  if (key =? "Enter") && negb shiftKey then ChatInput_submit ws disabled value
  else (None, value).

(** The [disabled] attributes of the textarea and of the send button. *)
Definition ChatInput_textareaDisabled (disabled blocked : bool) : bool :=
  disabled || blocked.

Definition ChatInput_sendDisabled (ws : ascii -> bool) (value : string)
           (disabled blocked : bool) : bool :=
  (trim ws value =? "") || disabled || blocked.

(** *** ClarificationBox *)

Definition ClarificationBox_submit (ws : ascii -> bool) (answer : string)
  : option string * string :=
  let trimmed := trim ws answer in
  if trimmed =? "" then (None, answer)
  else (Some trimmed, "").

Definition ClarificationBox_onKeyDown (ws : ascii -> bool) (key : string)
           (disabled : bool) (answer : string) : option string * string :=
  if (key =? "Enter") && negb disabled then ClarificationBox_submit ws answer
  else (None, answer).

Definition ClarificationBox_answerDisabled (ws : ascii -> bool) (answer : string)
           (disabled : bool) : bool :=
  disabled || (trim ws answer =? "").

(** *** FailureCard and QueryBlock *)

(** The text FailureCard shows: [message || "..."]. *)
Definition FailureCard_text (message : option string) : string :=
  match message with
  | Some m => if m =? "" then "I couldn't find relevant information in the indexed documents."
              else m
  | None => "I couldn't find relevant information in the indexed documents."
  end.

Inductive Element :=
| UserBubble (text : string) (time : Z)
| LoadingBar (label : string)
| FailureCard (shown : string)
| ClarificationBox (index : nat) (subQuery question : string) (disabled : bool)
| SubAnswerCard (index : nat) (subAnswer : SubAnswer)
| StatusLine (partialBadge : bool) (answeredBadge : option nat) (time : Z)
             (tag : option string).

Fixpoint mapi {A B} (f : A -> nat -> B) (i : nat) (l : list A) : list B :=
  match l with
  | [] => []
  | x :: l' => f x i :: mapi f (S i) l'
  end.

Definition subAnswerElement (loadingProp : bool) (sa : SubAnswer) (i : nat) : Element :=
  if sa_status sa =? "clarification_required"
  then ClarificationBox i (query sa)
         (match clarification_question sa with
          | Some q => q
          | None => "Could you clarify this question?"
          end)
         loadingProp
  else SubAnswerCard i sa.

Definition QueryBlock (message : ChatMessage) (loadingProp : bool) : list Element :=
  match role message with
  | user => [UserBubble (content message) (timestamp message)]
  | assistant =>
      match response message with
      | None =>
          if stillLoading message then [LoadingBar "Running RAG pipeline…"] else []
      | Some r =>
          (if (status r =? "failure") && (List.length (sub_answers r) =? 0)%nat
           then [FailureCard
                   (FailureCard_text
                      (Some (match error_message r with
                             | Some e => e
                             | None => "Pipeline failed to produce a response."
                             end)))]
           else [])
          ++ mapi (subAnswerElement loadingProp) 0 (sub_answers r)
          ++ [StatusLine (status r =? "partial")
                (if (status r =? "answered") && (1 <? List.length (sub_answers r))%nat
                 then Some (List.length (sub_answers r)) else None)
                (timestamp message)
                (if conversation_id r =? "" then None
                 else Some (substring 0 6 (conversation_id r)))]
      end
  end.

Definition isClarificationBox (e : Element) : bool :=
  match e with ClarificationBox _ _ _ _ => true | _ => false end.

(** *** ChatContainer: the controls and what they are wired to *)

Definition showsClarificationBox (h : Hook) : bool :=
  existsb (fun m => existsb isClarificationBox (QueryBlock m (loading h)))
          (messages (state h)).

(** What the user does with the input, with a clarification box and with
    the Clear button, and the arrival of an outcome. *)
Inductive UiEvent :=
| InputKey (d : Draws) (value key : string) (shiftKey : bool)
| InputSend (d : Draws) (value : string)
| BoxKey (d : Draws) (answer key : string)
| BoxAnswer (d : Draws) (answer : string)
| ClearClick
| Arrives (k : nat) (o : Outcome).

Definition submitted (w : World) (d : Draws) (r : option string * string) : World :=
  match fst r with
  | Some prompt => step w (CallSubmitQuery d prompt None)
  | None => w
  end.

Definition clarified (w : World) (d : Draws) (r : option string * string) : World :=
  match fst r with
  | Some ans => step w (CallSubmitClarification d ans)
  | None => w
  end.

(** A control that is not rendered or is disabled gets no event. *)
Definition uiStep (ws : ascii -> bool) (w : World) (e : UiEvent) : World :=
  let h := hook w in
  let disabled := loading h in
  let blocked := ChatInput_blocked (hasPendingClarification h) disabled in
  match e with
  | InputKey d value key shiftKey =>
      if ChatInput_textareaDisabled disabled blocked then w
      else submitted w d (ChatInput_onKeyDown ws key shiftKey disabled value)
  | InputSend d value =>
      if ChatInput_sendDisabled ws value disabled blocked then w
      else submitted w d (ChatInput_submit ws disabled value)
  | BoxKey d ans key =>
      if negb (showsClarificationBox h) || disabled then w
      else clarified w d (ClarificationBox_onKeyDown ws key disabled ans)
  | BoxAnswer d ans =>
      if negb (showsClarificationBox h) || ClarificationBox_answerDisabled ws ans disabled
      then w
      else clarified w d (ClarificationBox_submit ws ans)
  | ClearClick =>
      match messages (state h) with
      | [] => w
      | _ :: _ => step w CallClearChat
      end
  | Arrives k o => step w (Settle k o)
  end.

Definition uiRun (ws : ascii -> bool) (es : list UiEvent) (w : World) : World :=
  fold_left (uiStep ws) es w.

(** A white-space test for the examples: the space character. *)
Definition isSpace (c : ascii) : bool := (c =? " ")%char.

Fixpoint allChars (p : ascii -> bool) (s : string) : bool :=
  match s with
  | EmptyString => true
  | String c s' => p c && allChars p s'
  end.

(** The sub-answer index of the first clarification box among elements. *)
Fixpoint firstBoxIndex (els : list Element) : option nat :=
  match els with
  | [] => None
  | ClarificationBox i _ _ _ :: _ => Some i
  | _ :: els' => firstBoxIndex els'
  end.




(** * Properties *)

(** ** Basic facts *)

Lemma exec_setState (f : ConversationState -> ConversationState) (h : Hook) :
  exec (setState f) h = {| state := f (state h); loading := loading h; error := error h |}.
Proof. reflexivity. Qed.

Lemma exec_resolveMessage (i : string) (r : QueryResponse) (h : Hook) :
  exec (resolveMessage i r) h =
  {| state := resolveState i r (state h); loading := loading h; error := error h |}.
Proof. reflexivity. Qed.

Lemma exec_failMessage (i : string) (e : string) (h : Hook) :
  exec (failMessage i e) h =
  {| state := failState i e (state h); loading := loading h; error := error h |}.
Proof. reflexivity. Qed.

Lemma exec_resume_fulfilled (lid : string) (r : QueryResponse) (h : Hook) :
  exec (resume lid (Fulfilled r)) h =
  {| state := resolveState lid r (state h); loading := false; error := error h |}.
Proof. reflexivity. Qed.

Lemma exec_resume_rejected (lid : string) (e : Thrown) (h : Hook) :
  exec (resume lid (Rejected e)) h =
  {| state := failState lid (errorText e) (state h); loading := false;
     error := Some (errorText e) |}.
Proof. reflexivity. Qed.

Lemma submitQuery_run (d : Draws) (prompt : string) (pdfPath : option string) (h : Hook) :
  submitQuery d prompt pdfPath h =
  ({| loadId := makeId (rndLoad d);
      request := SendQuery prompt (conversationId (state h)) pdfPath |},
   {| state := appendMessage (loadingMessage (makeId (rndLoad d)) (nowLoad d))
                 (appendMessage (userMessage (makeId (rndUser d)) prompt (nowUser d))
                    (state h));
      loading := true; error := None |}).
Proof. reflexivity. Qed.

Lemma messages_append2 (u l : ChatMessage) (s : ConversationState) :
  messages (appendMessage l (appendMessage u s)) = messages s ++ [u; l].
Proof. simpl. now rewrite <- app_assoc. Qed.

(** A [map] that leaves every element alone is the identity. *)
Lemma map_fixed {A} (f : A -> A) (l : list A) :
  (forall x, In x l -> f x = x) -> map f l = l.
Proof.
  induction l as [|x l IH]; intros H; simpl; [reflexivity|].
  rewrite (H x (or_introl eq_refl)), IH; [reflexivity|].
  intros y Hy. apply H. now right.
Qed.

Lemma resolveOne_other (i : string) (r : QueryResponse) (m : ChatMessage) :
  id m <> i -> resolveOne i r m = m.
Proof. intros H. unfold resolveOne. apply String.eqb_neq in H. now rewrite H. Qed.

Lemma failOne_other (i : string) (resp : QueryResponse) (m : ChatMessage) :
  id m <> i -> failOne i resp m = m.
Proof. intros H. unfold failOne. apply String.eqb_neq in H. now rewrite H. Qed.

Lemma resolveOne_id (i : string) (r : QueryResponse) (m : ChatMessage) :
  id (resolveOne i r m) = id m.
Proof. unfold resolveOne. now destruct (id m =? i). Qed.

Lemma failOne_id (i : string) (resp : QueryResponse) (m : ChatMessage) :
  id (failOne i resp m) = id m.
Proof. unfold failOne. now destruct (id m =? i). Qed.

(** *** [findIndex] *)

Lemma findIndexFrom_none {A} (p : A -> bool) (l : list A) (i : Z) :
  (forall x, In x l -> p x = false) -> findIndexFrom p i l = (-1)%Z.
Proof.
  revert i. induction l as [|x l IH]; intros i H; simpl; [reflexivity|].
  rewrite (H x (or_introl eq_refl)). apply IH. intros y Hy. apply H. now right.
Qed.

Lemma findIndexFrom_first {A} (p : A -> bool) (l : list A) (i : Z) (k : nat) (x : A) :
  nth_error l k = Some x -> p x = true ->
  (forall j y, (j < k)%nat -> nth_error l j = Some y -> p y = false) ->
  findIndexFrom p i l = (i + Z.of_nat k)%Z.
Proof.
  revert i k. induction l as [|a l IH]; intros i k Hk Hp Hbefore.
  - destruct k; discriminate.
  - destruct k as [|k]; simpl in *.
    + injection Hk as ->. rewrite Hp. lia.
    + rewrite (Hbefore 0%nat a); [|lia|reflexivity].
      rewrite (IH (i + 1)%Z k Hk Hp); [lia|].
      intros j y Hj Hy. apply (Hbefore (S j) y); [lia|exact Hy].
Qed.

Lemma findIndex_first {A} (p : A -> bool) (l : list A) (k : nat) (x : A) :
  nth_error l k = Some x -> p x = true ->
  (forall j y, (j < k)%nat -> nth_error l j = Some y -> p y = false) ->
  findIndex p l = Z.of_nat k.
Proof.
  intros Hk Hp Hb. unfold findIndex.
  rewrite (findIndexFrom_first p l 0%Z k x Hk Hp Hb). lia.
Qed.

(** ** The pending clarification index after [resolveMessage] *)

Lemma resolveState_unmatched (i : string) (r : QueryResponse) (s : ConversationState) :
  status r = "clarification_required" ->
  (forall sa, In sa (sub_answers r) -> sa_status sa <> "clarification_required") ->
  pendingClarificationIndex (resolveState i r s) = Some (-1)%Z.
Proof.
  intros Hst Hnone. unfold resolveState; simpl.
  rewrite Hst, String.eqb_refl. f_equal.
  apply findIndexFrom_none. intros sa Hsa.
  unfold isClarification. apply String.eqb_neq. now apply Hnone.
Qed.

(** C1, where the code departs from the claim. A response whose status is
    "clarification_required" while none of its sub-answers has that status
    does not leave [pendingClarificationIndex] undefined: whatever the state
    and the message id, [resolveMessage] stores the [-1] of [findIndex], so
    the hook reports a pending clarification and [submitClarification] then
    sends the sub-answer index [-1]. *)
Theorem resolveMessage_unmatched_clarification :
  (forall (h : Hook) (i : string),
      pendingClarificationIndex (state (exec (resolveMessage i unmatchedClarification) h))
      = Some (-1)%Z
      /\ hasPendingClarification (exec (resolveMessage i unmatchedClarification) h) = true)
  /\ eval (submitClarification noDraws "yearly revenue")
          (exec (resolveMessage "9x3k1q7b" unmatchedClarification) initialHook)
     = Some {| loadId := "9x3k1q7b";
               request := SendClarification "c1" (-1)%Z "yearly revenue" |}.
Proof.
  split; [|reflexivity].
  intros h i. rewrite exec_resolveMessage. unfold hasPendingClarification.
  cbn [state].
  rewrite (resolveState_unmatched i unmatchedClarification (state h)).
  - split; reflexivity.
  - reflexivity.
  - intros sa [<-|[]]. discriminate.
Qed.

(** ** [resolveMessage] for an id that no message has *)

(** C2 as stated fails: after [clearChat] no message has the id of the
    placeholder, yet the late [resolveMessage] changes the state, because it
    stores the conversation id of the response. *)
Lemma late_resolve_changes_session :
  let h := exec clearChat initialHook in
  (forall m, In m (messages (state h)) -> id m <> "9x3k1q7b")
  /\ exec (resolveMessage "9x3k1q7b" answeredResponse) h <> h
  /\ conversationId (state (exec (resolveMessage "9x3k1q7b" answeredResponse) h))
     = Some "c1".
Proof.
  simpl. split; [intros m []|]. split; [discriminate|reflexivity].
Qed.

(** C2, amended. When no message has the given id, [resolveMessage] leaves
    [messages] as it is (and [loading] and the last error too), while the
    session is still taken from the response: [conversationId] becomes its
    [conversation_id]; [pendingClarificationIndex] is cleared when its status
    is not "clarification_required", and is the index of the first sub-answer
    with that status when the response has that status and such a sub-answer. *)
Theorem resolveMessage_absent_id (h : Hook) (i : string) (r : QueryResponse) :
  (forall m, In m (messages (state h)) -> id m <> i) ->
  let h' := exec (resolveMessage i r) h in
  messages (state h') = messages (state h)
  /\ loading h' = loading h
  /\ error h' = error h
  /\ conversationId (state h') = Some (conversation_id r)
  /\ (status r <> "clarification_required" ->
      pendingClarificationIndex (state h') = None)
  /\ (forall k sa,
        status r = "clarification_required" ->
        nth_error (sub_answers r) k = Some sa ->
        sa_status sa = "clarification_required" ->
        (forall j sb, (j < k)%nat -> nth_error (sub_answers r) j = Some sb ->
                      sa_status sb <> "clarification_required") ->
        pendingClarificationIndex (state h') = Some (Z.of_nat k)).
Proof.
  intros Habsent h'. subst h'. rewrite exec_resolveMessage. simpl.
  repeat split.
  - apply map_fixed. intros m Hm. apply resolveOne_other. now apply Habsent.
  - intros Hst. apply String.eqb_neq in Hst. now rewrite Hst.
  - intros k sa Hst Hk Hsa Hbefore. rewrite Hst, String.eqb_refl. f_equal.
    apply (findIndex_first isClarification (sub_answers r) k sa Hk).
    + unfold isClarification. now rewrite Hsa, String.eqb_refl.
    + intros j sb Hj Hsb. unfold isClarification. apply String.eqb_neq.
      exact (Hbefore j sb Hj Hsb).
Qed.

Lemma resolveMessage_absent_id_witness :
  let h := exec clearChat initialHook in
  let h' := exec (resolveMessage "9x3k1q7b" anonymousClarification) h in
  messages (state h') = messages (state h)
  /\ conversationId (state h') = Some ""
  /\ pendingClarificationIndex (state h') = Some 0%Z.
Proof.
  pose proof (resolveMessage_absent_id (exec clearChat initialHook) "9x3k1q7b"
                anonymousClarification (fun m (H : In m []) => match H with end))
    as (Hm & _ & _ & Hc & _ & Hp).
  split; [exact Hm|]. split; [exact Hc|].
  apply (Hp 0%nat {| query := "revenue"; sa_status := "clarification_required";
                     answer := ""; citations := [];
                     clarification_question := Some "Which year?" |});
    try reflexivity.
  intros j sb Hj. lia.
Defined.

(** ** [submitClarification] *)

(** C3 as stated fails: with a conversation id that is defined but empty
    (stored from a response by [resolveMessage]) and a pending index that is
    defined, [submitClarification] still returns at once: no message is
    appended and no request is issued. *)
Lemma submitClarification_empty_conversation_id :
  let h := exec (resolveMessage "9x3k1q7b" anonymousClarification) initialHook in
  conversationId (state h) = Some ""
  /\ pendingClarificationIndex (state h) = Some 0%Z
  /\ submitClarification noDraws "yearly revenue" h = (None, h).
Proof. simpl. repeat split. Qed.

(** C3, amended. [submitClarification answer] changes nothing and issues no
    request when [conversationId] is undefined or the empty string, or
    [pendingClarificationIndex] is undefined. Otherwise it clears the last
    error, appends a user message with content "Clarification: " + answer and
    then a loading placeholder, sets [loading], and calls the clarification
    operation with (conversationId, pendingClarificationIndex, answer) for
    that placeholder. *)
Theorem submitClarification_spec (d : Draws) (ans : string) (h : Hook) :
  (conversationId (state h) = None \/ conversationId (state h) = Some ""
   \/ pendingClarificationIndex (state h) = None ->
   submitClarification d ans h = (None, h))
  /\ (forall conv idx,
        conversationId (state h) = Some conv -> conv <> "" ->
        pendingClarificationIndex (state h) = Some idx ->
        submitClarification d ans h =
        (Some {| loadId := makeId (rndLoad d);
                 request := SendClarification conv idx ans |},
         {| state :=
              {| messages :=
                   messages (state h) ++
                   [ {| id := makeId (rndUser d); role := user;
                        content := ("Clarification: " ++ ans)%string;
                        timestamp := nowUser d; isLoading := None; response := None |};
                     {| id := makeId (rndLoad d); role := assistant; content := "";
                        timestamp := nowLoad d; isLoading := Some true;
                        response := None |} ];
                 conversationId := Some conv;
                 pendingClarificationIndex := Some idx |};
            loading := true; error := None |})).
Proof.
  split.
  - intros H. unfold submitClarification, bind, rendered.
    destruct H as [H|[H|H]]; rewrite H; simpl.
    + reflexivity.
    + reflexivity.
    + now destruct (truthy (conversationId (state h))).
  - intros conv idx Hc Hne Hp. unfold submitClarification, bind, rendered.
    rewrite Hc, Hp. simpl. apply String.eqb_neq in Hne. rewrite Hne. simpl.
    unfold ret, appendMessage, userMessage, loadingMessage. cbn [messages conversationId pendingClarificationIndex].
    rewrite <- app_assoc, Hc, Hp. reflexivity.
Qed.

Lemma submitClarification_spec_witness :
  let h := exec (resolveMessage "9x3k1q7b"
                   {| conversation_id := "c1"; status := "clarification_required";
                      sub_answers := sub_answers anonymousClarification;
                      error_message := None |}) initialHook in
  submitClarification noDraws "yearly revenue" (exec clearChat h)
  = (None, exec clearChat h)
  /\ fst (submitClarification noDraws "yearly revenue" h)
     = Some {| loadId := "9x3k1q7b";
               request := SendClarification "c1" 0%Z "yearly revenue" |}.
Proof.
  intros h. split.
  - apply (proj1 (submitClarification_spec noDraws "yearly revenue" (exec clearChat h))).
    left. reflexivity.
  - rewrite (proj2 (submitClarification_spec noDraws "yearly revenue" h)
               "c1" 0%Z eq_refl ltac:(discriminate) eq_refl).
    reflexivity.
Defined.

(** ** [failMessage] *)

(** C4. [failMessage id errText] turns every message with that id, at its
    place in the list, into the same message with [isLoading = false] and a
    synthesized response: status "failure", the previous conversation id or
    the empty string, and the single sub-answer [{query: "", status:
    "failed", citations: [], answer: errText}]; the other messages stay, and
    when no message has the id the whole state stays. *)
Theorem failMessage_spec (h : Hook) (i errText : string) :
  let h' := exec (failMessage i errText) h in
  (forall k m,
      nth_error (messages (state h)) k = Some m -> id m = i ->
      nth_error (messages (state h')) k =
      Some {| id := id m; role := role m; content := content m;
              timestamp := timestamp m; isLoading := Some false;
              response :=
                Some {| conversation_id :=
                          match conversationId (state h) with
                          | Some c => c
                          | None => ""
                          end;
                        status := "failure";
                        sub_answers :=
                          [ {| query := ""; sa_status := "failed"; answer := errText;
                               citations := []; clarification_question := None |} ];
                        error_message := None |} |})
  /\ (forall k m,
        nth_error (messages (state h)) k = Some m -> id m <> i ->
        nth_error (messages (state h')) k = Some m)
  /\ ((forall m, In m (messages (state h)) -> id m <> i) -> h' = h).
Proof.
  intros h'. subst h'. rewrite exec_failMessage. cbn [state]. unfold failState.
  cbn [messages]. repeat split.
  - intros k m Hk Hid. rewrite nth_error_map, Hk. simpl.
    unfold failOne. apply String.eqb_eq in Hid. now rewrite Hid.
  - intros k m Hk Hid. rewrite nth_error_map, Hk. simpl.
    now rewrite failOne_other.
  - intros Habsent. rewrite map_fixed.
    + destruct h as [[ms c p] l e]. reflexivity.
    + intros m Hm. apply failOne_other. now apply Habsent.
Qed.

Lemma failMessage_spec_witness :
  let h := exec (submitQuery noDraws "What is HyDE?" None) initialHook in
  nth_error (messages (state (exec (failMessage "9x3k1q7b" "timeout") h))) 1
  = Some {| id := "9x3k1q7b"; role := assistant; content := "";
            timestamp := 1700000000001%Z; isLoading := Some false;
            response :=
              Some {| conversation_id := ""; status := "failure";
                      sub_answers :=
                        [ {| query := ""; sa_status := "failed"; answer := "timeout";
                             citations := []; clarification_question := None |} ];
                      error_message := None |} |}
  /\ exec (failMessage "9x3k1q7b" "timeout") initialHook = initialHook.
Proof.
  intros h. split.
  - exact (proj1 (failMessage_spec h "9x3k1q7b" "timeout") 1%nat
             (loadingMessage "9x3k1q7b" 1700000000001%Z) eq_refl eq_refl).
  - apply (proj2 (proj2 (failMessage_spec initialHook "9x3k1q7b" "timeout"))).
    intros m [].
Defined.

(** C9. [failMessage] leaves [conversationId] and
    [pendingClarificationIndex] as they are, and so does the whole handling
    of a rejected request: a clarification that was pending is still
    pending after a transport failure. *)
Theorem failMessage_keeps_session (h : Hook) (i errText : string) :
  conversationId (state (exec (failMessage i errText) h)) = conversationId (state h)
  /\ pendingClarificationIndex (state (exec (failMessage i errText) h))
     = pendingClarificationIndex (state h)
  /\ (forall e : Thrown,
        conversationId (state (exec (resume i (Rejected e)) h))
        = conversationId (state h)
        /\ pendingClarificationIndex (state (exec (resume i (Rejected e)) h))
           = pendingClarificationIndex (state h)
        /\ hasPendingClarification (exec (resume i (Rejected e)) h)
           = hasPendingClarification h).
Proof.
  rewrite exec_failMessage. repeat split.
Qed.

(** ** [resolveMessage] *)

(** C5. [resolveMessage id r] gives every message with that id the content
    [r.sub_answers[0].answer] when [sub_answers] is not empty and the empty
    string when it is, with [isLoading = false] and [r] attached. *)
Theorem resolveMessage_content (h : Hook) (i : string) (r : QueryResponse)
        (k : nat) (m : ChatMessage) :
  nth_error (messages (state h)) k = Some m ->
  id m = i ->
  exists m',
    nth_error (messages (state (exec (resolveMessage i r) h))) k = Some m'
    /\ content m' = match sub_answers r with
                    | [] => ""
                    | sa :: _ => answer sa
                    end
    /\ isLoading m' = Some false
    /\ response m' = Some r
    /\ id m' = id m /\ role m' = role m /\ timestamp m' = timestamp m.
Proof.
  intros Hk Hid. rewrite exec_resolveMessage. cbn [state]. unfold resolveState.
  cbn [messages]. rewrite nth_error_map, Hk. simpl.
  eexists. split; [reflexivity|].
  unfold resolveOne. apply String.eqb_eq in Hid. rewrite Hid. simpl.
  unfold firstAnswer. destruct (sub_answers r); repeat split.
Qed.

Lemma resolveMessage_content_witness :
  let h := exec (submitQuery noDraws "What is HyDE?" None) initialHook in
  exists m',
    nth_error (messages (state (exec (resolveMessage "9x3k1q7b" answeredResponse) h))) 1
    = Some m'
    /\ content m' = "HyDE generates a hypothetical document...".
Proof.
  intros h.
  destruct (resolveMessage_content h "9x3k1q7b" answeredResponse 1%nat
              (loadingMessage "9x3k1q7b" 1700000000001%Z) eq_refl eq_refl)
    as (m' & Hm' & Hc & _).
  exists m'. split; [exact Hm'|exact Hc].
Defined.

(** C7. [resolveMessage] is idempotent: a second [resolveMessage id r]
    right after the first changes nothing, neither the content of a message
    nor any other part of the state. *)
Theorem resolveMessage_idempotent (h : Hook) (i : string) (r : QueryResponse) :
  exec (resolveMessage i r) (exec (resolveMessage i r) h)
  = exec (resolveMessage i r) h.
Proof.
  rewrite !exec_resolveMessage. cbn [state loading error]. f_equal.
  unfold resolveState. cbn [messages]. f_equal.
  rewrite map_map. apply map_ext. intros m.
  unfold resolveOne at 2. destruct (id m =? i) eqn:E.
  - unfold resolveOne. cbn [id]. now rewrite E.
  - unfold resolveOne. now rewrite E.
Qed.

(** ** Counting messages *)

Lemma resume_length (lid : string) (o : Outcome) (h : Hook) :
  List.length (messages (state (exec (resume lid o) h)))
  = List.length (messages (state h)).
Proof.
  destruct o as [r|e].
  - rewrite exec_resume_fulfilled. simpl. apply length_map.
  - rewrite exec_resume_rejected. simpl. apply length_map.
Qed.

Lemma step_submitQuery (w : World) (d : Draws) (prompt : string) (pdfPath : option string) :
  step w (CallSubmitQuery d prompt pdfPath) =
  {| hook := exec (submitQuery d prompt pdfPath) (hook w);
     inflight := inflight w ++ [eval (submitQuery d prompt pdfPath) (hook w)] |}.
Proof. reflexivity. Qed.

Lemma step_settle_length (w : World) (k : nat) (o : Outcome) :
  List.length (messages (state (hook (step w (Settle k o)))))
  = List.length (messages (state (hook w))).
Proof.
  simpl. destruct (nth_error (inflight w) k); [|reflexivity].
  apply resume_length.
Qed.

Lemma run_cons (e : Event) (es : list Event) (w : World) :
  run (e :: es) w = run es (step w e).
Proof. reflexivity. Qed.

(** C6. Up to its [await], [submitQuery prompt] appends exactly a user
    message with the literal prompt and then an assistant loading
    placeholder; settling a request, fulfilled or rejected, keeps the number
    of messages; so over any run of [submitQuery] calls and settlements, in
    any order, the message count grows by 2 for each call. *)
Theorem submitQuery_adds_two_messages :
  (forall (d : Draws) (prompt : string) (pdfPath : option string) (h : Hook),
      messages (state (exec (submitQuery d prompt pdfPath) h)) =
      messages (state h) ++
      [ {| id := makeId (rndUser d); role := user; content := prompt;
           timestamp := nowUser d; isLoading := None; response := None |};
        {| id := makeId (rndLoad d); role := assistant; content := "";
           timestamp := nowLoad d; isLoading := Some true; response := None |} ])
  /\ (forall (lid : string) (o : Outcome) (h : Hook),
        List.length (messages (state (exec (resume lid o) h)))
        = List.length (messages (state h)))
  /\ (forall (qs : list QueryEvent) (w : World),
        List.length (messages (state (hook (run (map queryEvent qs) w))))
        = (List.length (messages (state (hook w))) + 2 * submissions qs)%nat).
Proof.
  split; [|split].
  - intros d prompt pdfPath h. unfold exec. rewrite submitQuery_run.
    cbn [snd state]. apply messages_append2.
  - exact resume_length.
  - induction qs as [|q qs IH]; intros w.
    + unfold submissions. simpl. lia.
    + cbn [map]. rewrite run_cons, IH. destruct q as [d prompt pdfPath|k o].
      * cbn [queryEvent]. rewrite step_submitQuery. cbn [hook].
        unfold exec. rewrite submitQuery_run. cbn [snd state].
        rewrite messages_append2, length_app. unfold submissions. simpl. lia.
      * cbn [queryEvent]. rewrite step_settle_length.
        unfold submissions. simpl. lia.
Qed.

(** ** Message ids *)

Lemma removeNth_In {A} (k : nat) (l : list A) (x : A) :
  In x (removeNth k l) -> In x l.
Proof.
  revert k. induction l as [|a l IH]; intros k H.
  - destruct k; exact H.
  - destruct k as [|k]; simpl in H.
    + now right.
    + destruct H as [H|H]; [now left|right; eauto].
Qed.

Lemma removeNth_NoDup {A B} (f : A -> B) (k : nat) (l : list A) :
  NoDup (map f l) -> NoDup (map f (removeNth k l)).
Proof.
  revert k. induction l as [|a l IH]; intros k H.
  - destruct k; exact H.
  - simpl in H. apply NoDup_cons_iff in H as [Ha Hl].
    destruct k as [|k]; simpl; [exact Hl|].
    constructor; [|now apply IH].
    intros Hin. apply Ha. apply in_map_iff in Hin as (x & Hx & Hin).
    apply in_map_iff. exists x. split; [exact Hx|]. eapply removeNth_In; eauto.
Qed.

Lemma removeNth_other {A B} (f : A -> B) (k : nat) (l : list A) (p q : A) :
  NoDup (map f l) -> nth_error l k = Some p -> In q (removeNth k l) -> f q <> f p.
Proof.
  revert k. induction l as [|a l IH]; intros k Hnd Hk Hq.
  - destruct k; discriminate.
  - simpl in Hnd. apply NoDup_cons_iff in Hnd as [Ha Hl].
    destruct k as [|k]; simpl in *.
    + injection Hk as ->. intros E. apply Ha. rewrite <- E. now apply in_map.
    + destruct Hq as [<-|Hq].
      * intros E. apply Ha. rewrite E. apply in_map. eapply nth_error_In; eauto.
      * eauto.
Qed.

(** Settling maps a function over the messages that keeps every id and
    touches only the messages with the id it is given. *)
Lemma resume_messages (lid : string) (o : Outcome) (h : Hook) :
  exists g : ChatMessage -> ChatMessage,
    messages (state (exec (resume lid o) h)) = map g (messages (state h))
    /\ (forall m, id (g m) = id m)
    /\ (forall m, id m <> lid -> g m = m)
    /\ (forall m, id m = lid -> isLoading (g m) = Some false).
Proof.
  destruct o as [r|e].
  - exists (resolveOne lid r). rewrite exec_resume_fulfilled. repeat split.
    + apply resolveOne_id.
    + intros m. apply resolveOne_other.
    + intros m Hm. unfold resolveOne. apply String.eqb_eq in Hm. now rewrite Hm.
  - exists (failOne lid (failureResponse (conversationId (state h)) (errorText e))).
    rewrite exec_resume_rejected. repeat split.
    + apply failOne_id.
    + intros m. apply failOne_other.
    + intros m Hm. unfold failOne. apply String.eqb_eq in Hm. now rewrite Hm.
Qed.

Lemma consistent_same (w w' : World) (fut : list string) :
  messages (state (hook w')) = messages (state (hook w)) ->
  inflight w' = inflight w ->
  consistent w fut -> consistent w' fut.
Proof.
  intros Hm Hi [H1 H2 H3 H4 H5].
  constructor; unfold msgIds, loadIds in *; rewrite ?Hm, ?Hi; assumption.
Qed.

Lemma consistent_later (w : World) (now fut : list string) :
  consistent w (now ++ fut) -> consistent w fut.
Proof.
  intros [H1 H2 H3 H4 H5]. constructor; try assumption.
  - now apply NoDup_app_remove_l in H4.
  - intros i Hi. apply H5. apply in_or_app. now right.
Qed.

Lemma consistent_cleared (w : World) (fut : list string) :
  consistent w fut -> consistent (step w CallClearChat) fut.
Proof.
  intros [H1 H2 H3 H4 H5]. constructor; simpl; try assumption.
  - constructor.
  - intros m p [].
  - intros i Hi. split; [intros []|]. now apply H5.
Qed.

Lemma consistent_settled (w : World) (fut : list string) (k : nat) (o : Outcome) :
  consistent w fut -> consistent (step w (Settle k o)) fut.
Proof.
  intros Hw. cbn [step]. destruct (nth_error (inflight w) k) as [p|] eqn:Hk;
    [|exact Hw].
  destruct Hw as [H1 H2 H3 H4 H5].
  destruct (resume_messages (loadId p) o (hook w)) as (g & Hg & Hid & Hother & _).
  assert (Hids : map id (map g (messages (state (hook w))))
                 = map id (messages (state (hook w)))).
  { rewrite map_map. apply map_ext. exact Hid. }
  constructor; unfold msgIds, loadIds in *; cbn [hook inflight]; rewrite ?Hg, ?Hids.
  - exact H1.
  - now apply removeNth_NoDup.
  - intros m' q Hm' Hq E.
    apply in_map_iff in Hm' as (m & <- & Hm).
    rewrite Hid in E.
    assert (Hne : id m <> loadId p).
    { rewrite E. exact (removeNth_other loadId k (inflight w) p q H2 Hk Hq). }
    rewrite (Hother m Hne).
    apply (H3 m q Hm (removeNth_In k _ q Hq) E).
  - exact H4.
  - intros i Hi. destruct (H5 i Hi) as [Ha Hb]. split; [exact Ha|].
    intros Hin. apply Hb. apply in_map_iff in Hin as (q & Hq & Hin).
    apply in_map_iff. exists q. split; [exact Hq|]. eapply removeNth_In; eauto.
Qed.

Lemma NoDup_snoc {A} (l : list A) (a : A) :
  NoDup l -> ~ In a l -> NoDup (l ++ [a]).
Proof.
  intros Hl Ha. induction Hl as [|x l Hx Hl IH]; simpl.
  - constructor; [intros []|constructor].
  - constructor.
    + intros Hin. apply in_app_or in Hin as [Hin|[->|[]]].
      * now apply Hx.
      * apply Ha. now left.
    + apply IH. intros Hin. apply Ha. now right.
Qed.

Lemma consistent_begins (w : World) (d : Draws) (c : string) (req : Request)
      (fut : list string) :
  consistent w (drawn d ++ fut) -> consistent (begins w d c req) fut.
Proof.
  intros [H1 H2 H3 H4 H5]. unfold drawn in *. cbn [app] in *.
  set (u := makeId (rndUser d)) in *. set (l := makeId (rndLoad d)) in *.
  apply NoDup_cons_iff in H4 as [Hu H4].
  apply NoDup_cons_iff in H4 as [Hl H4].
  assert (Hul : u <> l) by (intros E; apply Hu; now left).
  destruct (H5 u (or_introl eq_refl)) as [Hum Hui].
  destruct (H5 l (or_intror (or_introl eq_refl))) as [Hlm Hli].
  assert (Hmsgs : messages (state (hook (begins w d c req)))
                  = messages (state (hook w))
                    ++ [userMessage u c (nowUser d); loadingMessage l (nowLoad d)]).
  { unfold begins. cbn [hook state]. apply messages_append2. }
  constructor; unfold msgIds, loadIds in *; rewrite ?Hmsgs.
  - rewrite map_app. cbn [map id userMessage loadingMessage].
    change [u; l] with ([u] ++ [l]). rewrite app_assoc.
    apply NoDup_snoc; [now apply NoDup_snoc|].
    intros Hin. apply in_app_or in Hin as [Hin|[E|[]]]; [now apply Hlm|].
    now apply Hul.
  - unfold begins. cbn [inflight]. rewrite map_app. cbn [map loadId].
    now apply NoDup_snoc.
  - unfold begins at 1. cbn [inflight]. intros m p Hm Hp E.
    apply in_app_or in Hm. apply in_app_or in Hp.
    destruct Hp as [Hp|[<-|[]]]; destruct Hm as [Hm|[<-|[<-|[]]]];
      cbn [loadId id userMessage loadingMessage timestamp] in *.
    + now apply H3.
    + exfalso. apply Hui. apply in_map_iff. exists p. split; [symmetry; exact E|exact Hp].
    + exfalso. apply Hli. apply in_map_iff. exists p. split; [symmetry; exact E|exact Hp].
    + exfalso. apply Hlm. apply in_map_iff. exists m. split; [exact E|exact Hm].
    + exfalso. now apply Hul.
    + reflexivity.
  - exact H4.
  - intros i Hi.
    destruct (H5 i (or_intror (or_intror Hi))) as [Him Hii].
    assert (Hiu : i <> u) by (intros ->; now apply Hu; right).
    assert (Hil : i <> l) by (intros ->; now apply Hl).
    split.
    + rewrite map_app. cbn [map id userMessage loadingMessage].
      intros Hin. apply in_app_or in Hin as [Hin|[E|[E|[]]]]; auto.
    + unfold begins. cbn [inflight]. rewrite map_app. cbn [map loadId].
      intros Hin. apply in_app_or in Hin as [Hin|[E|[]]]; auto.
Qed.

(** A call either begins a submission or returns at once. *)
Lemma step_call (w : World) (e : Event) :
  match e with
  | CallSubmitQuery d _ _ | CallSubmitClarification d _ | CallRetryLast d =>
      (exists c req, step w e = begins w d c req)
      \/ (messages (state (hook (step w e))) = messages (state (hook w))
          /\ inflight (step w e) = inflight w)
  | CallClearChat | Settle _ _ => True
  end.
Proof.
  destruct e as [d prompt pdfPath|d ans|d| |k o]; try exact I.
  - left. exists prompt, (SendQuery prompt (conversationId (state (hook w))) pdfPath).
    reflexivity.
  - cbn [step]. unfold submitClarification, bind, rendered.
    destruct (truthy (conversationId (state (hook w)))) as [conv|];
      [destruct (pendingClarificationIndex (state (hook w))) as [idx|]|].
    + left. exists ("Clarification: " ++ ans)%string, (SendClarification conv idx ans).
      reflexivity.
    + right. unfold awaiting, ret. cbn [fst snd hook inflight].
      split; [reflexivity|apply app_nil_r].
    + right. unfold awaiting, ret. cbn [fst snd hook inflight].
      split; [reflexivity|apply app_nil_r].
  - cbn [step]. unfold retryLast, bind, rendered.
    destruct (find isUser (rev (messages (state (hook w))))) as [lastUser|].
    + left. exists (content lastUser),
        (SendQuery (content lastUser) (conversationId (state (hook w))) None).
      reflexivity.
    + right. unfold awaiting, ret. cbn [fst snd hook inflight].
      split; [reflexivity|apply app_nil_r].
Qed.

Lemma consistent_called (w : World) (e : Event) (d : Draws) (fut : list string) :
  (exists c req, step w e = begins w d c req)
  \/ (messages (state (hook (step w e))) = messages (state (hook w))
      /\ inflight (step w e) = inflight w) ->
  consistent w (drawn d ++ fut) -> consistent (step w e) fut.
Proof.
  intros [(c & req & ->)|[Hm Hi]] Hw.
  - now apply consistent_begins.
  - apply (consistent_same w _ fut Hm Hi). now apply consistent_later in Hw.
Qed.

Lemma consistent_step (w : World) (e : Event) (fut : list string) :
  consistent w (drawnBy e ++ fut) -> consistent (step w e) fut.
Proof.
  intros Hw. pose proof (step_call w e) as Hcall.
  destruct e as [d prompt pdfPath|d ans|d| |k o].
  - exact (consistent_called w _ d fut Hcall Hw).
  - exact (consistent_called w _ d fut Hcall Hw).
  - exact (consistent_called w _ d fut Hcall Hw).
  - now apply consistent_cleared.
  - now apply consistent_settled.
Qed.

Lemma consistent_run (es : list Event) (w : World) :
  consistent w (drawnIds es) -> consistent (run es w) [].
Proof.
  revert w. induction es as [|e es IH]; intros w Hw; [exact Hw|].
  rewrite run_cons. apply IH. apply consistent_step. exact Hw.
Qed.

Lemma consistent_initial (fut : list string) :
  NoDup fut -> consistent initialWorld fut.
Proof.
  intros H. constructor; simpl; try constructor; try assumption.
  - intros m p [].
  - intros [].
  - intros [].
Qed.

(** C8 as stated fails: [makeId] keeps eight digits of a random number and
    checks nothing, so the two messages of one [submitQuery] get the same id
    when the two random numbers, different as they are, agree on those
    digits; the response of the request then lands on the user message as
    well as on the placeholder. *)
Lemma clashing_draws_share_an_id :
  let w := run [CallSubmitQuery clashingDraws "What is HyDE?" None] initialWorld in
  let w' := step w (Settle 0 (Fulfilled answeredResponse)) in
  rndUser clashingDraws <> rndLoad clashingDraws
  /\ map id (messages (state (hook w))) = ["abcdefgh"; "abcdefgh"]
  /\ ~ NoDup (map id (messages (state (hook w))))
  /\ map loadId (inflight w) = ["abcdefgh"]
  /\ map role (messages (state (hook w'))) = [user; assistant]
  /\ map content (messages (state (hook w')))
     = ["HyDE generates a hypothetical document...";
        "HyDE generates a hypothetical document..."].
Proof.
  cbv zeta. repeat split; try reflexivity.
  - discriminate.
  - intros H. apply NoDup_cons_iff in H as [H _]. apply H. now left.
Qed.

Lemma substring_length (n k : nat) (s : string) :
  String.length (substring n k s) = Nat.min k (String.length s - n).
Proof.
  revert n k. induction s as [|c s IH]; intros n k.
  - destruct n, k; reflexivity.
  - destruct n as [|n]; [destruct k as [|k]|]; simpl.
    + reflexivity.
    + rewrite IH. now rewrite Nat.sub_0_r.
    + apply IH.
Qed.

Lemma truthy_Some (s : option string) (c : string) :
  truthy s = Some c -> s = Some c /\ c <> "".
Proof.
  destruct s as [c'|]; simpl; [|discriminate].
  destruct (c' =? "") eqn:E; [discriminate|].
  intros [= ->]. split; [reflexivity|]. now apply String.eqb_neq.
Qed.

(** A call begins a submission, for the conversation the hook is in, or
    leaves the world as it is. *)
Lemma step_call_hook (w : World) (e : Event) :
  match e with
  | CallSubmitQuery d _ _ | CallSubmitClarification d _ | CallRetryLast d =>
      (exists c req, step w e = begins w d c req
                     /\ requestConv req = conversationId (state (hook w)))
      \/ (hook (step w e) = hook w /\ inflight (step w e) = inflight w)
  | CallClearChat | Settle _ _ => True
  end.
Proof.
  destruct e as [d prompt pdfPath|d ans|d| |k o]; try exact I.
  - left. exists prompt, (SendQuery prompt (conversationId (state (hook w))) pdfPath).
    split; reflexivity.
  - cbn [step]. unfold submitClarification, bind, rendered.
    destruct (truthy (conversationId (state (hook w)))) as [conv|] eqn:Hc;
      [destruct (pendingClarificationIndex (state (hook w))) as [idx|]|].
    + left. exists ("Clarification: " ++ ans)%string, (SendClarification conv idx ans).
      split; [reflexivity|]. symmetry. now apply truthy_Some.
    + right. unfold awaiting, ret. cbn [fst snd hook inflight].
      split; [reflexivity|apply app_nil_r].
    + right. unfold awaiting, ret. cbn [fst snd hook inflight].
      split; [reflexivity|apply app_nil_r].
  - cbn [step]. unfold retryLast, bind, rendered.
    destruct (find isUser (rev (messages (state (hook w))))) as [lastUser|].
    + left. exists (content lastUser),
        (SendQuery (content lastUser) (conversationId (state (hook w))) None).
      split; reflexivity.
    + right. unfold awaiting, ret. cbn [fst snd hook inflight].
      split; [reflexivity|apply app_nil_r].
Qed.

(** C8, amended. The id of a new message is [makeId()], which
    [addUserMessage] and [addLoadingMessage] give to the message they append
    and return: the characters 2 to 9 of the base-36 text of the random
    number, min(8, n - 2) of them for a text of n characters, taken without
    any check. In a run whose calls draw pairwise different ids, every state
    has pairwise different message ids, and a message with the id an awaited
    request holds is the loading placeholder that request created, still
    untouched; settling the request changes that message only, at its
    place. *)
Theorem distinct_draws_distinct_ids :
  (forall (rnd : string) (now : Z) (c : string) (h : Hook),
      eval (addUserMessage rnd now c) h = substring 2 8 rnd
      /\ messages (state (exec (addUserMessage rnd now c) h))
         = messages (state h)
           ++ [ {| id := substring 2 8 rnd; role := user; content := c;
                   timestamp := now; isLoading := None; response := None |} ])
  /\ (forall (rnd : string) (now : Z) (h : Hook),
        eval (addLoadingMessage rnd now) h = substring 2 8 rnd
        /\ messages (state (exec (addLoadingMessage rnd now) h))
           = messages (state h)
             ++ [ {| id := substring 2 8 rnd; role := assistant; content := "";
                     timestamp := now; isLoading := Some true; response := None |} ])
  /\ (forall rnd : string,
        String.length (makeId rnd) = Nat.min 8 (String.length rnd - 2))
  /\ (forall es : list Event,
        NoDup (drawnIds es) ->
        let w := run es initialWorld in
        NoDup (map id (messages (state (hook w))))
        /\ (forall p pre m post,
              In p (inflight w) ->
              messages (state (hook w)) = pre ++ m :: post ->
              id m = loadId p ->
              m = {| id := loadId p; role := assistant; content := "";
                     timestamp := timestamp m; isLoading := Some true;
                     response := None |}
              /\ forall o : Outcome,
                  exists m',
                    messages (state (exec (resume (loadId p) o) (hook w)))
                    = pre ++ m' :: post
                    /\ id m' = loadId p /\ isLoading m' = Some false)).
Proof.
  split; [intros; split; reflexivity|].
  split; [intros; split; reflexivity|].
  split; [intros rnd; unfold makeId; apply substring_length|].
  intros es Hnd w.
  pose proof (consistent_run es initialWorld (consistent_initial _ Hnd))
    as [H1 H2 H3 _ _].
  fold w in H1, H2, H3. unfold msgIds in H1. split; [exact H1|].
  intros p pre m post Hp Hms Hid. split.
  - apply (H3 m p); [|exact Hp|exact Hid].
    rewrite Hms. apply in_or_app. right. now left.
  - intros o.
    destruct (resume_messages (loadId p) o (hook w)) as (g & Hg & Hgid & Hother & Hload).
    exists (g m). rewrite Hg, Hms, map_app. cbn [map].
    rewrite Hms, map_app in H1. cbn [map] in H1.
    pose proof (NoDup_remove_2 _ _ _ H1) as Hfresh.
    assert (Hfix : forall l, (forall x, In x l -> In (id x) (map id pre ++ map id post)) ->
                             map g l = l).
    { intros l Hl. apply map_fixed. intros x Hx. apply Hother.
      intros E. apply Hfresh. rewrite Hid, <- E. now apply Hl. }
    rewrite (Hfix pre), (Hfix post).
    + repeat split; [now rewrite Hgid|now apply Hload].
    + intros x Hx. apply in_or_app. right. now apply in_map.
    + intros x Hx. apply in_or_app. left. now apply in_map.
Qed.

Lemma distinct_draws_distinct_ids_witness :
  let w := run [CallSubmitQuery noDraws "What is HyDE?" None] initialWorld in
  NoDup (map id (messages (state (hook w))))
  /\ exists m',
      messages (state (exec (resume "9x3k1q7b" (Fulfilled answeredResponse)) (hook w)))
      = [userMessage "4fzyo82m" "What is HyDE?" 1700000000000%Z] ++ m' :: []
      /\ id m' = "9x3k1q7b" /\ isLoading m' = Some false.
Proof.
  intros w.
  assert (Hnd : NoDup (drawnIds [CallSubmitQuery noDraws "What is HyDE?" None])).
  { repeat constructor; simpl; intuition discriminate. }
  destruct (proj2 (proj2 (proj2 distinct_draws_distinct_ids)) _ Hnd) as [H1 H2].
  split; [exact H1|].
  exact (proj2 (H2 {| loadId := "9x3k1q7b";
                      request := SendQuery "What is HyDE?" None None |}
                   [userMessage "4fzyo82m" "What is HyDE?" 1700000000000%Z]
                   (loadingMessage "9x3k1q7b" 1700000000001%Z) []
                   (or_introl eq_refl) eq_refl eq_refl)
               (Fulfilled answeredResponse)).
Defined.

(** ** [clearChat] and the [loading] flag *)






(** * Further properties of the hook *)

(** ** [retryLast] *)

Lemma find_all_false {A} (p : A -> bool) (l : list A) :
  (forall x, In x l -> p x = false) -> find p l = None.
Proof.
  induction l as [|a l IH]; intros H; simpl; [reflexivity|].
  rewrite (H a (or_introl eq_refl)). apply IH. intros x Hx. apply H. now right.
Qed.

Lemma find_after_false {A} (p : A -> bool) (l l' : list A) (a : A) :
  (forall x, In x l -> p x = false) -> p a = true -> find p (l ++ a :: l') = Some a.
Proof.
  induction l as [|b l IH]; intros H Ha; simpl.
  - now rewrite Ha.
  - rewrite (H b (or_introl eq_refl)). apply IH; [|exact Ha].
    intros x Hx. apply H. now right.
Qed.

Lemma assistant_not_user (m : ChatMessage) : role m = assistant -> isUser m = false.
Proof. unfold isUser. now intros ->. Qed.

(** The newest user message is the one [retryLast] picks. *)
Lemma find_last_user (pre post : list ChatMessage) (u : ChatMessage) :
  role u = user -> (forall m, In m post -> role m = assistant) ->
  find isUser (rev (pre ++ u :: post)) = Some u.
Proof.
  intros Hu Hpost. rewrite rev_app_distr. cbn [rev]. rewrite <- app_assoc.
  apply find_after_false.
  - intros x Hx. apply assistant_not_user, Hpost. now apply in_rev.
  - unfold isUser. now rewrite Hu.
Qed.

(** X1. With no user message in the list (an empty list included),
    [retryLast] changes nothing and issues no request. *)
Theorem retryLast_without_user_message (d : Draws) (h : Hook) :
  (forall m, In m (messages (state h)) -> role m = assistant) ->
  retryLast d h = (None, h).
Proof.
  intros H. unfold retryLast, bind, rendered.
  rewrite find_all_false; [reflexivity|].
  intros m Hm. apply assistant_not_user, H. now apply in_rev.
Qed.

Lemma retryLast_without_user_message_witness :
  retryLast noDraws (exec (addLoadingMessage "0.9x3k1q7bd2p" 5%Z) initialHook)
  = (None, exec (addLoadingMessage "0.9x3k1q7bd2p" 5%Z) initialHook).
Proof.
  apply retryLast_without_user_message.
  intros m [<-|[]]. reflexivity.
Defined.

Lemma retryLast_run_defined (d : Draws) (h : Hook)
        (pre post : list ChatMessage) (u : ChatMessage) :
  messages (state h) = pre ++ u :: post ->
  role u = user ->
  (forall m, In m post -> role m = assistant) ->
  retryLast d h =
  (Some {| loadId := makeId (rndLoad d);
           request := SendQuery (content u) (conversationId (state h)) None |},
   {| state :=
        {| messages :=
             messages (state h) ++
             [ {| id := makeId (rndUser d); role := user; content := content u;
                  timestamp := nowUser d; isLoading := None; response := None |};
               {| id := makeId (rndLoad d); role := assistant; content := "";
                  timestamp := nowLoad d; isLoading := Some true; response := None |} ];
           conversationId := conversationId (state h);
           pendingClarificationIndex := pendingClarificationIndex (state h) |};
      loading := true; error := None |}).
Proof.
  intros Hms Hu Hpost. unfold retryLast, bind, rendered.
  rewrite Hms, (find_last_user pre post u Hu Hpost), <- Hms.
  rewrite submitQuery_run. unfold ret, appendMessage, userMessage, loadingMessage.
  cbn [messages conversationId pendingClarificationIndex].
  now rewrite <- app_assoc.
Qed.

(** X2. When [u] is the newest user message, [retryLast] keeps every
    message that is there and appends a new user message with the content
    of [u] and a loading placeholder; the request is a query with that
    content and the current conversation id, and without a pdf path. *)
Theorem retryLast_resends_last_user_message (d : Draws) (h : Hook)
        (pre post : list ChatMessage) (u : ChatMessage) :
  messages (state h) = pre ++ u :: post ->
  role u = user ->
  (forall m, In m post -> role m = assistant) ->
  retryLast d h =
  (Some {| loadId := makeId (rndLoad d);
           request := SendQuery (content u) (conversationId (state h)) None |},
   {| state :=
        {| messages :=
             messages (state h) ++
             [ {| id := makeId (rndUser d); role := user; content := content u;
                  timestamp := nowUser d; isLoading := None; response := None |};
               {| id := makeId (rndLoad d); role := assistant; content := "";
                  timestamp := nowLoad d; isLoading := Some true; response := None |} ];
           conversationId := conversationId (state h);
           pendingClarificationIndex := pendingClarificationIndex (state h) |};
      loading := true; error := None |}).
Proof. apply retryLast_run_defined. Qed.

Lemma retryLast_resends_last_user_message_witness :
  let h := exec (resume "9x3k1q7b" (Rejected (ErrorInstance "timeout")))
                (exec (submitQuery noDraws "What is HyDE?" None) initialHook) in
  fst (retryLast clashingDraws h)
  = Some {| loadId := "abcdefgh"; request := SendQuery "What is HyDE?" None None |}.
Proof.
  intros h.
  rewrite (retryLast_resends_last_user_message clashingDraws h []
             [failOne "9x3k1q7b" (failureResponse None "timeout")
                (loadingMessage "9x3k1q7b" 1700000000001%Z)]
             (userMessage "4fzyo82m" "What is HyDE?" 1700000000000%Z)
             eq_refl eq_refl).
  - reflexivity.
  - intros m [<-|[]]. reflexivity.
Defined.

Lemma submitClarification_run_defined (d : Draws) (ans conv : string) (idx : Z) (h : Hook) :
  conversationId (state h) = Some conv -> conv <> "" ->
  pendingClarificationIndex (state h) = Some idx ->
  submitClarification d ans h =
  (Some {| loadId := makeId (rndLoad d); request := SendClarification conv idx ans |},
   {| state :=
        {| messages :=
             messages (state h) ++
             [userMessage (makeId (rndUser d)) ("Clarification: " ++ ans)%string (nowUser d);
              loadingMessage (makeId (rndLoad d)) (nowLoad d)];
           conversationId := Some conv;
           pendingClarificationIndex := Some idx |};
      loading := true; error := None |}).
Proof.
  intros Hc Hne Hp. unfold submitClarification, bind, rendered.
  rewrite Hc, Hp. simpl. apply String.eqb_neq in Hne. rewrite Hne.
  unfold ret, appendMessage. cbn [messages conversationId pendingClarificationIndex].
  rewrite <- app_assoc, Hc, Hp. reflexivity.
Qed.

(** X3. A clarification whose request was rejected is retried as a plain
    query: [retryLast] then sends the text "Clarification: " + answer to the
    query operation, not the answer to the clarification operation. *)
Theorem retryLast_after_failed_clarification
        (d d' : Draws) (ans conv : string) (idx : Z) (e : Thrown) (h : Hook) :
  conversationId (state h) = Some conv -> conv <> "" ->
  pendingClarificationIndex (state h) = Some idx ->
  let h1 := exec (submitClarification d ans) h in
  let h2 := exec (resume (makeId (rndLoad d)) (Rejected e)) h1 in
  eval (submitClarification d ans) h
  = Some {| loadId := makeId (rndLoad d); request := SendClarification conv idx ans |}
  /\ eval (retryLast d') h2
     = Some {| loadId := makeId (rndLoad d');
               request := SendQuery ("Clarification: " ++ ans)%string (Some conv) None |}.
Proof.
  intros Hc Hne Hp h1 h2. subst h1 h2. unfold exec, eval.
  rewrite (submitClarification_run_defined d ans conv idx h Hc Hne Hp).
  cbn [fst snd]. split; [reflexivity|].
  fold (exec (resume (makeId (rndLoad d)) (Rejected e))
          {| state :=
               {| messages := messages (state h) ++
                    [userMessage (makeId (rndUser d)) ("Clarification: " ++ ans)%string
                       (nowUser d);
                     loadingMessage (makeId (rndLoad d)) (nowLoad d)];
                  conversationId := Some conv;
                  pendingClarificationIndex := Some idx |};
             loading := true; error := None |}).
  rewrite exec_resume_rejected. cbn [state]. unfold failState.
  cbn [messages conversationId pendingClarificationIndex].
  set (f := failOne _ _).
  rewrite map_app. cbn [map].
  erewrite (retryLast_run_defined d' _ (map f (messages (state h)))
              [f (loadingMessage (makeId (rndLoad d)) (nowLoad d))]
              (f (userMessage (makeId (rndUser d)) ("Clarification: " ++ ans)%string
                    (nowUser d)))).
  - cbn [fst state conversationId]. f_equal. f_equal. f_equal.
    subst f. unfold failOne. now destruct (_ =? _).
  - cbn [state messages]. reflexivity.
  - subst f. unfold failOne. now destruct (_ =? _).
  - intros m [<-|[]]. subst f. unfold failOne. now destruct (_ =? _).
Qed.

Lemma retryLast_after_failed_clarification_witness :
  let h := exec (resolveMessage "9x3k1q7b"
                   {| conversation_id := "c1"; status := "clarification_required";
                      sub_answers := sub_answers anonymousClarification;
                      error_message := None |})
                (exec (submitQuery noDraws "revenue" None) initialHook) in
  let h2 := exec (resume "abcdefgh" (Rejected OtherValue))
                 (exec (submitClarification clashingDraws "yearly") h) in
  eval (retryLast noDraws) h2
  = Some {| loadId := "9x3k1q7b";
            request := SendQuery "Clarification: yearly" (Some "c1") None |}.
Proof.
  intros h h2.
  exact (proj2 (retryLast_after_failed_clarification clashingDraws noDraws "yearly"
                  "c1" 0%Z OtherValue h eq_refl ltac:(discriminate) eq_refl)).
Defined.

(** ** One whole turn *)

Lemma exec_submitQuery (d : Draws) (prompt : string) (pdfPath : option string) (h : Hook) :
  exec (submitQuery d prompt pdfPath) h =
  {| state := appendMessage (loadingMessage (makeId (rndLoad d)) (nowLoad d))
                (appendMessage (userMessage (makeId (rndUser d)) prompt (nowUser d))
                   (state h));
     loading := true; error := None |}.
Proof. reflexivity. Qed.

Lemma eval_submitQuery (d : Draws) (prompt : string) (pdfPath : option string) (h : Hook) :
  eval (submitQuery d prompt pdfPath) h =
  {| loadId := makeId (rndLoad d);
     request := SendQuery prompt (conversationId (state h)) pdfPath |}.
Proof. reflexivity. Qed.

Lemma nth_error_placeholder (ms : list ChatMessage) (u l : ChatMessage)
      (f : ChatMessage -> ChatMessage) :
  nth_error (map f ((ms ++ [u]) ++ [l])) (List.length ms + 1) = Some (f l).
Proof.
  rewrite nth_error_map, <- app_assoc. cbn [app].
  rewrite nth_error_app2 by lia.
  replace (List.length ms + 1 - List.length ms)%nat with 1%nat by lia.
  reflexivity.
Qed.

(** X4. A [submitQuery] whose request is rejected ends with [loading]
    false, the last error equal to the message of the error (or "Unknown
    error"), the session untouched, two more messages, and its placeholder,
    the last message, no longer loading and carrying a failure response
    whose only sub-answer has that same text. *)
Theorem submitQuery_rejected_turn
        (d : Draws) (prompt : string) (pdfPath : option string) (e : Thrown) (h : Hook) :
  let p := eval (submitQuery d prompt pdfPath) h in
  let h2 := exec (resume (loadId p) (Rejected e)) (exec (submitQuery d prompt pdfPath) h) in
  request p = SendQuery prompt (conversationId (state h)) pdfPath
  /\ loading h2 = false
  /\ error h2 = Some (match e with ErrorInstance msg => msg | OtherValue => "Unknown error" end)
  /\ conversationId (state h2) = conversationId (state h)
  /\ pendingClarificationIndex (state h2) = pendingClarificationIndex (state h)
  /\ List.length (messages (state h2)) = (List.length (messages (state h)) + 2)%nat
  /\ nth_error (messages (state h2)) (List.length (messages (state h)) + 1)
     = Some {| id := makeId (rndLoad d); role := assistant; content := "";
               timestamp := nowLoad d; isLoading := Some false;
               response :=
                 Some {| conversation_id :=
                           match conversationId (state h) with
                           | Some c => c
                           | None => ""
                           end;
                         status := "failure";
                         sub_answers :=
                           [ {| query := ""; sa_status := "failed";
                                answer := match e with
                                          | ErrorInstance msg => msg
                                          | OtherValue => "Unknown error"
                                          end;
                                citations := []; clarification_question := None |} ];
                         error_message := None |} |}.
Proof.
  intros p h2. subst p h2. rewrite eval_submitQuery, exec_submitQuery.
  cbn [loadId request]. rewrite exec_resume_rejected.
  cbn [state loading error]. unfold failState.
  cbn [messages conversationId pendingClarificationIndex appendMessage].
  split; [reflexivity|]. split; [reflexivity|].
  split; [destruct e; reflexivity|]. split; [reflexivity|]. split; [reflexivity|].
  split.
  - rewrite length_map, !length_app. simpl. lia.
  - rewrite nth_error_placeholder. unfold failOne, loadingMessage. cbn [id].
    rewrite String.eqb_refl. destruct e; reflexivity.
Qed.

(** X5. A [submitQuery] whose request is fulfilled with [r] ends with
    [loading] false, no last error, the conversation id of [r], two more
    messages, and its placeholder, the last message, no longer loading,
    carrying [r] and showing the answer of the first sub-answer of [r]. *)
Theorem submitQuery_fulfilled_turn
        (d : Draws) (prompt : string) (pdfPath : option string) (r : QueryResponse) (h : Hook) :
  let p := eval (submitQuery d prompt pdfPath) h in
  let h2 := exec (resume (loadId p) (Fulfilled r)) (exec (submitQuery d prompt pdfPath) h) in
  loading h2 = false
  /\ error h2 = None
  /\ conversationId (state h2) = Some (conversation_id r)
  /\ List.length (messages (state h2)) = (List.length (messages (state h)) + 2)%nat
  /\ nth_error (messages (state h2)) (List.length (messages (state h)) + 1)
     = Some {| id := makeId (rndLoad d); role := assistant;
               content := match sub_answers r with
                          | [] => ""
                          | sa :: _ => answer sa
                          end;
               timestamp := nowLoad d; isLoading := Some false; response := Some r |}.
Proof.
  intros p h2. subst p h2. rewrite eval_submitQuery, exec_submitQuery.
  cbn [loadId request]. rewrite exec_resume_fulfilled.
  cbn [state loading error]. unfold resolveState.
  cbn [messages conversationId pendingClarificationIndex appendMessage].
  split; [reflexivity|]. split; [reflexivity|]. split; [reflexivity|].
  split.
  - rewrite length_map, !length_app. simpl. lia.
  - rewrite nth_error_placeholder. unfold resolveOne, loadingMessage, firstAnswer.
    cbn [id]. rewrite String.eqb_refl. destruct (sub_answers r); reflexivity.
Qed.

(** ** What every run keeps *)

Lemma begins_messages (w : World) (d : Draws) (c : string) (req : Request) :
  messages (state (hook (begins w d c req)))
  = messages (state (hook w))
    ++ [userMessage (makeId (rndUser d)) c (nowUser d);
        loadingMessage (makeId (rndLoad d)) (nowLoad d)].
Proof. unfold begins. cbn [hook state]. apply messages_append2. Qed.

Lemma removeNth_keeps {A B} (f : A -> B) (k : nat) (l : list A) (p q : A) :
  nth_error l k = Some p -> In q l -> f q <> f p -> In q (removeNth k l).
Proof.
  revert k. induction l as [|a l IH]; intros k Hk Hq Hne; [destruct Hq|].
  destruct k as [|k]; simpl in *.
  - injection Hk as ->. destruct Hq as [->|Hq]; [congruence|exact Hq].
  - destruct Hq as [->|Hq]; [now left|right; eauto].
Qed.

Lemma awaited_step (w : World) (e : Event) :
  (forall m, In m (messages (state (hook w))) -> isLoading m = Some true ->
             In (id m) (loadIds w)) ->
  forall m, In m (messages (state (hook (step w e)))) -> isLoading m = Some true ->
            In (id m) (loadIds (step w e)).
Proof.
  intros Hw. pose proof (step_call_hook w e) as Hcall.
  assert (Hbegin : forall d,
             (exists c req, step w e = begins w d c req
                            /\ requestConv req = conversationId (state (hook w)))
             \/ (hook (step w e) = hook w /\ inflight (step w e) = inflight w) ->
             forall m, In m (messages (state (hook (step w e)))) ->
                       isLoading m = Some true -> In (id m) (loadIds (step w e))).
  { intros d [(c & req & -> & _)|[Hh Hi]] m Hm Hl.
    - rewrite begins_messages in Hm. unfold loadIds, begins. cbn [inflight].
      rewrite map_app. apply in_or_app.
      apply in_app_or in Hm as [Hm|[<-|[<-|[]]]].
      + left. now apply Hw.
      + discriminate.
      + right. now left.
    - unfold loadIds. rewrite Hi. rewrite Hh in Hm. now apply Hw. }
  destruct e as [d prompt pdfPath|d ans|d| |k o].
  - exact (Hbegin d Hcall).
  - exact (Hbegin d Hcall).
  - exact (Hbegin d Hcall).
  - intros m [].
  - cbn [step]. destruct (nth_error (inflight w) k) as [p|] eqn:Hk; [|exact Hw].
    cbn [hook]. intros m' Hm' Hl.
    destruct (resume_messages (loadId p) o (hook w)) as (g & Hg & Hid & Hother & Hdone).
    rewrite Hg in Hm'. apply in_map_iff in Hm' as (m & <- & Hm).
    destruct (string_dec (id m) (loadId p)) as [E|E].
    + rewrite (Hdone m E) in Hl. discriminate.
    + rewrite (Hother m E) in Hl |- *.
      apply (Hw m Hm) in Hl. apply in_map_iff in Hl as (q & Hq & Hin).
      unfold loadIds. cbn [inflight]. apply in_map_iff. exists q. split; [exact Hq|].
      apply (removeNth_keeps loadId k (inflight w) p q Hk Hin). congruence.
Qed.

(** X6. In every state a run reaches, a message that is still loading has
    an awaited request that holds its id; so once no request is awaited, no
    message is loading. *)
Theorem loading_messages_are_awaited (es : list Event) :
  let w := run es initialWorld in
  (forall m, In m (messages (state (hook w))) -> isLoading m = Some true ->
             exists p, In p (inflight w) /\ loadId p = id m)
  /\ (inflight w = [] ->
      forall m, In m (messages (state (hook w))) -> isLoading m <> Some true).
Proof.
  intros w.
  assert (H : forall m, In m (messages (state (hook w))) -> isLoading m = Some true ->
                        In (id m) (loadIds w)).
  { subst w. generalize initialWorld,
      (fun (m : ChatMessage) (H : In m (messages (state (hook initialWorld))))
           (_ : isLoading m = Some true) =>
         match H return In (id m) (loadIds initialWorld) with end).
    induction es as [|e es IH]; intros w0 H0; [exact H0|].
    rewrite run_cons. apply IH. now apply awaited_step. }
  split.
  - intros m Hm Hl. apply (H m Hm) in Hl. apply in_map_iff in Hl as (p & Hp & Hin).
    now exists p.
  - intros Hnone m Hm Hl. apply (H m Hm) in Hl. unfold loadIds in Hl.
    now rewrite Hnone in Hl.
Qed.

Lemma loading_messages_are_awaited_witness :
  let w := run [CallSubmitQuery noDraws "What is HyDE?" None;
                Settle 0 (Rejected OtherValue)] initialWorld in
  Forall (fun m => isLoading m <> Some true) (messages (state (hook w))).
Proof.
  intros w. apply Forall_forall.
  exact (proj2 (loading_messages_are_awaited
                  [CallSubmitQuery noDraws "What is HyDE?" None;
                   Settle 0 (Rejected OtherValue)]) eq_refl).
Defined.

Lemma provenance_step (w : World) (e : Event) (S : list string) :
  (forall c, conversationId (state (hook w)) = Some c -> In c S) ->
  (forall p c, In p (inflight w) -> requestConv (request p) = Some c -> In c S) ->
  (forall c, conversationId (state (hook (step w e))) = Some c -> In c (S ++ deliveredBy e))
  /\ (forall p c, In p (inflight (step w e)) -> requestConv (request p) = Some c ->
                  In c (S ++ deliveredBy e)).
Proof.
  intros Hc Hp. pose proof (step_call_hook w e) as Hcall.
  assert (Hbegin : forall d,
             (exists c req, step w e = begins w d c req
                            /\ requestConv req = conversationId (state (hook w)))
             \/ (hook (step w e) = hook w /\ inflight (step w e) = inflight w) ->
             (forall c, conversationId (state (hook (step w e))) = Some c -> In c S)
             /\ (forall p c, In p (inflight (step w e)) ->
                             requestConv (request p) = Some c -> In c S)).
  { intros d [(c0 & req & -> & Hreq)|[Hh Hi]].
    - split; [exact Hc|]. unfold begins. cbn [inflight]. intros p c Hin Hpc.
      apply in_app_or in Hin as [Hin|[<-|[]]]; [eauto|].
      cbn [request] in Hpc. rewrite Hreq in Hpc. now apply Hc.
    - rewrite Hh, Hi. now split. }
  assert (Hweak : forall l,
             (forall c, conversationId (state (hook (step w e))) = Some c -> In c S)
             /\ (forall p c, In p (inflight (step w e)) ->
                             requestConv (request p) = Some c -> In c S) ->
             (forall c, conversationId (state (hook (step w e))) = Some c -> In c (S ++ l))
             /\ (forall p c, In p (inflight (step w e)) ->
                             requestConv (request p) = Some c -> In c (S ++ l))).
  { intros l [H1 H2]. split; intros; apply in_or_app; left; eauto. }
  destruct e as [d prompt pdfPath|d ans|d| |k o].
  - exact (Hweak _ (Hbegin d Hcall)).
  - exact (Hweak _ (Hbegin d Hcall)).
  - exact (Hweak _ (Hbegin d Hcall)).
  - apply Hweak. split; [discriminate|exact Hp].
  - cbn [step]. destruct (nth_error (inflight w) k) as [p0|] eqn:Hk.
    + cbn [hook inflight]. split.
      * destruct o as [r|err].
        -- rewrite exec_resume_fulfilled. cbn [state conversationId deliveredBy].
           intros c [= <-]. apply in_or_app. right. now left.
        -- rewrite exec_resume_rejected. cbn [state conversationId failState].
           intros c Hcc. apply in_or_app. left. now apply Hc.
      * intros p c Hin Hpc. apply in_or_app. left.
        apply (Hp p c); [|exact Hpc]. eapply removeNth_In; eauto.
    + split; intros; apply in_or_app; left; eauto.
Qed.

(** X7. The hook never makes up a conversation id: in every state a run
    reaches, the conversation id, when defined, and the conversation id of
    every awaited request, when it has one, is the [conversation_id] of a
    response the run has delivered. *)
Theorem conversation_id_comes_from_a_response (es : list Event) :
  let w := run es initialWorld in
  (forall c, conversationId (state (hook w)) = Some c -> In c (deliveredIds es))
  /\ (forall p c, In p (inflight w) -> requestConv (request p) = Some c ->
                  In c (deliveredIds es)).
Proof.
  intros w. subst w.
  change (deliveredIds es) with ([] ++ deliveredIds es).
  assert (H0 : (forall c, conversationId (state (hook initialWorld)) = Some c -> In c [])
               /\ (forall p c, In p (inflight initialWorld) ->
                               requestConv (request p) = Some c -> In c []))
    by (split; [discriminate|intros p c []]).
  revert H0. generalize initialWorld, (@nil string).
  induction es as [|e es IH]; intros w S [H1 H2].
  - rewrite app_nil_r. now split.
  - rewrite run_cons. unfold deliveredIds. cbn [flat_map]. rewrite app_assoc.
    apply IH. now apply provenance_step.
Qed.

Lemma conversation_id_comes_from_a_response_witness :
  In "c1" (deliveredIds [CallSubmitQuery noDraws "What is HyDE?" None;
                         Settle 0 (Fulfilled answeredResponse)]).
Proof.
  exact (proj1 (conversation_id_comes_from_a_response
                  [CallSubmitQuery noDraws "What is HyDE?" None;
                   Settle 0 (Fulfilled answeredResponse)]) "c1" eq_refl).
Defined.

(** ** The message list *)

Lemma resolveOne_skeleton (i : string) (r : QueryResponse) (m : ChatMessage) :
  skeleton (resolveOne i r m) = skeleton m.
Proof. unfold resolveOne. now destruct (id m =? i). Qed.

Lemma failOne_skeleton (i : string) (resp : QueryResponse) (m : ChatMessage) :
  skeleton (failOne i resp m) = skeleton m.
Proof. unfold failOne. now destruct (id m =? i). Qed.

Lemma resume_skeleton (lid : string) (o : Outcome) (h : Hook) :
  map skeleton (messages (state (exec (resume lid o) h)))
  = map skeleton (messages (state h)).
Proof.
  destruct o as [r|e].
  - rewrite exec_resume_fulfilled. cbn [state resolveState messages].
    rewrite map_map. apply map_ext. apply resolveOne_skeleton.
  - rewrite exec_resume_rejected. cbn [state failState messages].
    rewrite map_map. apply map_ext. apply failOne_skeleton.
Qed.

Lemma skeleton_step (w : World) (e : Event) :
  isClear e = false ->
  exists more, map skeleton (messages (state (hook (step w e))))
               = map skeleton (messages (state (hook w))) ++ more.
Proof.
  intros Hclear. pose proof (step_call_hook w e) as Hcall.
  assert (Hbegin : forall d,
             (exists c req, step w e = begins w d c req
                            /\ requestConv req = conversationId (state (hook w)))
             \/ (hook (step w e) = hook w /\ inflight (step w e) = inflight w) ->
             exists more, map skeleton (messages (state (hook (step w e))))
                          = map skeleton (messages (state (hook w))) ++ more).
  { intros d [(c & req & -> & _)|[Hh _]].
    - rewrite begins_messages, map_app. eauto.
    - rewrite Hh. exists []. now rewrite app_nil_r. }
  destruct e as [d prompt pdfPath|d ans|d| |k o]; eauto; [discriminate|].
  cbn [step]. exists []. rewrite app_nil_r.
  destruct (nth_error (inflight w) k); [|reflexivity].
  cbn [hook]. apply resume_skeleton.
Qed.

(** X8. Without [clearChat] the message list only grows at its end: over
    any run of submissions, retries and settlements, the ids, roles and
    timestamps of the messages that were there stay, in order, a prefix of
    those of the messages that are there afterwards. *)
Theorem messages_append_only (es : list Event) (w : World) :
  noClear es = true ->
  exists more, map skeleton (messages (state (hook (run es w))))
               = map skeleton (messages (state (hook w))) ++ more.
Proof.
  revert w. induction es as [|e es IH]; intros w Hes.
  - exists []. now rewrite app_nil_r.
  - cbn [noClear forallb] in Hes. apply andb_true_iff in Hes as [He Hes].
    apply negb_true_iff in He.
    destruct (skeleton_step w e He) as (more1 & H1).
    destruct (IH (step w e) Hes) as (more2 & H2).
    exists (more1 ++ more2). rewrite run_cons, H2, H1. now rewrite app_assoc.
Qed.

Lemma messages_append_only_witness :
  exists more,
    map skeleton (messages (state (hook
      (run [Settle 0 (Fulfilled answeredResponse); CallRetryLast clashingDraws]
           (step initialWorld (CallSubmitQuery noDraws "What is HyDE?" None))))))
    = [("4fzyo82m", user, 1700000000000%Z); ("9x3k1q7b", assistant, 1700000000001%Z)]
      ++ more.
Proof.
  exact (messages_append_only
           [Settle 0 (Fulfilled answeredResponse); CallRetryLast clashingDraws]
           (step initialWorld (CallSubmitQuery noDraws "What is HyDE?" None)) eq_refl).
Defined.

(** X9. In a run whose calls draw pairwise different ids, a user message
    is never rewritten: whatever comes next, short of [clearChat], every
    user message is afterwards at its place exactly as it was, its content
    the text it was created with. *)
Theorem user_messages_are_kept (es : list Event) (e : Event) (k : nat) (m : ChatMessage) :
  NoDup (drawnIds es) ->
  isClear e = false ->
  nth_error (messages (state (hook (run es initialWorld)))) k = Some m ->
  role m = user ->
  nth_error (messages (state (hook (step (run es initialWorld) e)))) k = Some m.
Proof.
  intros Hnd Hclear Hk Hu.
  pose proof (consistent_run es initialWorld (consistent_initial _ Hnd)) as [_ _ H3 _ _].
  set (w := run es initialWorld) in *.
  pose proof (step_call_hook w e) as Hcall.
  assert (Hbegin : forall d,
             (exists c req, step w e = begins w d c req
                            /\ requestConv req = conversationId (state (hook w)))
             \/ (hook (step w e) = hook w /\ inflight (step w e) = inflight w) ->
             nth_error (messages (state (hook (step w e)))) k = Some m).
  { intros d [(c & req & -> & _)|[Hh _]].
    - rewrite begins_messages, nth_error_app1; [exact Hk|].
      apply nth_error_Some. now rewrite Hk.
    - now rewrite Hh. }
  destruct e as [d prompt pdfPath|d ans|d| |j o]; eauto; [discriminate|].
  cbn [step]. destruct (nth_error (inflight w) j) as [p|] eqn:Hj; [|exact Hk].
  cbn [hook].
  destruct (resume_messages (loadId p) o (hook w)) as (g & Hg & _ & Hother & _).
  rewrite Hg, nth_error_map, Hk. cbn [option_map]. f_equal. apply Hother.
  intros E.
  pose proof (H3 m p (nth_error_In _ _ Hk) (nth_error_In _ _ Hj) E) as Hm.
  rewrite Hm in Hu. discriminate.
Qed.

Lemma user_messages_are_kept_witness :
  nth_error (messages (state (hook
    (step (run [CallSubmitQuery noDraws "What is HyDE?" None] initialWorld)
          (Settle 0 (Fulfilled answeredResponse)))))) 0
  = Some (userMessage "4fzyo82m" "What is HyDE?" 1700000000000%Z).
Proof.
  apply (user_messages_are_kept [CallSubmitQuery noDraws "What is HyDE?" None]
           (Settle 0 (Fulfilled answeredResponse)) 0
           (userMessage "4fzyo82m" "What is HyDE?" 1700000000000%Z)).
  - repeat constructor; simpl; intuition discriminate.
  - reflexivity.
  - reflexivity.
  - reflexivity.
Defined.

(** * The chat components *)

(** ** [trim] *)

Lemma trimStart_split (ws : ascii -> bool) (s : string) :
  exists pre, s = (pre ++ trimStart ws s)%string /\ allChars ws pre = true.
Proof.
  induction s as [|c s (pre & Hs & Hpre)]; simpl.
  - now exists "".
  - destruct (ws c) eqn:Hc.
    + exists (String c pre). simpl. rewrite Hc, Hpre. split; [now f_equal|reflexivity].
    + now exists "".
Qed.

Lemma trimStart_head (ws : ascii -> bool) (s : string) (c : ascii) (t : string) :
  trimStart ws s = String c t -> ws c = false.
Proof.
  induction s as [|a s IH]; simpl; [discriminate|].
  destruct (ws a) eqn:Ha; [exact IH|]. now intros [= <- _].
Qed.

Lemma trimEnd_split (ws : ascii -> bool) (s : string) :
  exists post, s = (trimEnd ws s ++ post)%string /\ allChars ws post = true.
Proof.
  induction s as [|c s (post & Hs & Hpost)]; simpl.
  - now exists "".
  - destruct (trimEnd ws s) as [|a t] eqn:Ht.
    + destruct (ws c) eqn:Hc.
      * exists (String c s). simpl. split; [reflexivity|].
        rewrite Hc. simpl in Hs. now rewrite Hs.
      * exists post. simpl. split; [now f_equal|exact Hpost].
    + exists post. simpl. split; [now f_equal|exact Hpost].
Qed.

Lemma trimEnd_last (ws : ascii -> bool) (s t : string) (c : ascii) :
  trimEnd ws s = (t ++ String c "")%string -> ws c = false.
Proof.
  revert t. induction s as [|a s IH]; intros t; simpl.
  - destruct t; discriminate.
  - destruct (trimEnd ws s) as [|b u] eqn:Hu.
    + destruct (ws a) eqn:Ha.
      * destruct t; discriminate.
      * destruct t as [|x t]; simpl.
        -- now intros [= <-].
        -- intros [= _ H]. destruct t; discriminate.
    + destruct t as [|x t]; simpl.
      * discriminate.
      * intros [= _ H]. exact (IH t H).
Qed.

Lemma trimEnd_head (ws : ascii -> bool) (s : string) (c : ascii) (t : string) :
  trimEnd ws s = String c t -> exists s', s = String c s'.
Proof.
  destruct s as [|a s]; simpl; [discriminate|].
  destruct (trimEnd ws s); [destruct (ws a)|]; intros [= <- _]; eauto.
Qed.

Lemma trimEnd_empty (ws : ascii -> bool) (s : string) :
  trimEnd ws s = "" -> allChars ws s = true.
Proof.
  induction s as [|a s IH]; simpl; [reflexivity|].
  destruct (trimEnd ws s); [|discriminate].
  destruct (ws a); [|discriminate]. intros _. now rewrite IH.
Qed.

Lemma allChars_app (p : ascii -> bool) (s t : string) :
  allChars p (s ++ t)%string = allChars p s && allChars p t.
Proof.
  induction s as [|a s IH]; simpl; [reflexivity|]. now rewrite IH, andb_assoc.
Qed.

(** What [trim] returns: the text between a leading and a trailing run of
    white space, which itself neither starts nor ends with white space, and
    which is empty exactly when the text is white space only. *)
Lemma trim_spec (ws : ascii -> bool) (s : string) :
  (exists pre post, s = (pre ++ trim ws s ++ post)%string
                    /\ allChars ws pre = true /\ allChars ws post = true)
  /\ (forall c t, trim ws s = String c t -> ws c = false)
  /\ (forall t c, trim ws s = (t ++ String c "")%string -> ws c = false)
  /\ (trim ws s = "" <-> allChars ws s = true).
Proof.
  unfold trim.
  destruct (trimStart_split ws s) as (pre & Hs & Hpre).
  destruct (trimEnd_split ws (trimStart ws s)) as (post & Ht & Hpost).
  assert (Hdec : s = (pre ++ trimEnd ws (trimStart ws s) ++ post)%string)
    by (now rewrite <- Ht).
  split; [|split; [|split; [|split]]].
  - now exists pre, post.
  - intros c t H. apply trimEnd_head in H as (s' & H).
    now apply trimStart_head in H.
  - intros t c. apply trimEnd_last.
  - intros H. apply trimEnd_empty in H. rewrite Hs, allChars_app, Hpre. exact H.
  - intros H. destruct (trimEnd ws (trimStart ws s)) as [|c t] eqn:E; [reflexivity|].
    exfalso. apply trimEnd_head in E as (s' & E).
    pose proof (trimStart_head ws s c s' E) as Hc.
    rewrite Hs, allChars_app, E in H. simpl in H. rewrite Hc in H.
    now rewrite andb_false_r in H.
Qed.

(** ** ChatInput and ClarificationBox *)

Lemma nonempty_neq (s : string) : (s =? "") = false -> s <> "".
Proof. apply String.eqb_neq. Qed.

Lemma trim_nonempty_facts (ws : ascii -> bool) (value : string) :
  (trim ws value =? "") = false ->
  trim ws value <> ""
  /\ (exists pre post, value = (pre ++ trim ws value ++ post)%string
                       /\ allChars ws pre = true /\ allChars ws post = true)
  /\ (forall c t, trim ws value = String c t -> ws c = false)
  /\ (forall t c, trim ws value = (t ++ String c "")%string -> ws c = false).
Proof.
  intros H. destruct (trim_spec ws value) as (H1 & H2 & H3 & _).
  split; [now apply nonempty_neq|]. now split; [|split].
Qed.

(** X10. [submit] of ChatInput calls [onSubmit] only when the input is not
    disabled and the value has a character that is not white space; the
    prompt it passes is the value without its leading and trailing white
    space, hence not empty, and the value is reset. Otherwise nothing is
    passed and the value stays. The Enter key without Shift does the same
    and every other key nothing; and whenever the send button is enabled, a
    click does submit. *)
Theorem ChatInput_submit_spec (ws : ascii -> bool) (disabled : bool) (value : string) :
  match ChatInput_submit ws disabled value with
  | (Some prompt, value') =>
      disabled = false /\ value' = "" /\ prompt <> ""
      /\ (exists pre post, value = (pre ++ prompt ++ post)%string
                           /\ allChars ws pre = true /\ allChars ws post = true)
      /\ (forall c t, prompt = String c t -> ws c = false)
      /\ (forall t c, prompt = (t ++ String c "")%string -> ws c = false)
  | (None, value') =>
      value' = value /\ (disabled = true \/ allChars ws value = true)
  end
  /\ (forall key shiftKey,
        ChatInput_onKeyDown ws key shiftKey disabled value
        = if (key =? "Enter") && negb shiftKey then ChatInput_submit ws disabled value
          else (None, value))
  /\ (forall blocked,
        ChatInput_sendDisabled ws value disabled blocked = false ->
        ChatInput_submit ws disabled value = (Some (trim ws value), "")).
Proof.
  split; [|split].
  - unfold ChatInput_submit. destruct (trim ws value =? "") eqn:E; simpl.
    + split; [reflexivity|]. right. apply String.eqb_eq in E.
      now apply (trim_spec ws value).
    + destruct disabled; simpl.
      * split; [reflexivity|now left].
      * split; [reflexivity|]. split; [reflexivity|]. now apply trim_nonempty_facts.
  - reflexivity.
  - intros blocked H. unfold ChatInput_sendDisabled in H.
    apply orb_false_iff in H as [H _]. apply orb_false_iff in H as [H1 H2].
    unfold ChatInput_submit. now rewrite H1, H2.
Qed.

Lemma ChatInput_submit_spec_witness :
  ChatInput_submit isSpace false "  What is HyDE? " = (Some "What is HyDE?", "")
  /\ ChatInput_submit isSpace false "   " = (None, "   ").
Proof.
  split.
  - exact (proj2 (proj2 (ChatInput_submit_spec isSpace false "  What is HyDE? "))
             false eq_refl).
  - reflexivity.
Defined.

(** X11. [submit] of ClarificationBox passes the answer without its
    leading and trailing white space, and resets it, whenever the answer
    has a character that is not white space, whether or not the box is
    disabled; an answer of white space only is not passed. The Enter key
    submits only while the box is not disabled, and the Answer button is
    enabled only when a click passes an answer. *)
Theorem ClarificationBox_submit_spec (ws : ascii -> bool) (disabled : bool) (ans : string) :
  match ClarificationBox_submit ws ans with
  | (Some a, ans') =>
      ans' = "" /\ a <> ""
      /\ (exists pre post, ans = (pre ++ a ++ post)%string
                           /\ allChars ws pre = true /\ allChars ws post = true)
      /\ (forall c t, a = String c t -> ws c = false)
      /\ (forall t c, a = (t ++ String c "")%string -> ws c = false)
  | (None, ans') => ans' = ans /\ allChars ws ans = true
  end
  /\ (forall key,
        ClarificationBox_onKeyDown ws key disabled ans
        = if (key =? "Enter") && negb disabled then ClarificationBox_submit ws ans
          else (None, ans))
  /\ (ClarificationBox_answerDisabled ws ans disabled = false ->
      disabled = false /\ ClarificationBox_submit ws ans = (Some (trim ws ans), "")).
Proof.
  split; [|split].
  - unfold ClarificationBox_submit. destruct (trim ws ans =? "") eqn:E; simpl.
    + split; [reflexivity|]. apply String.eqb_eq in E. now apply (trim_spec ws ans).
    + split; [reflexivity|]. now apply trim_nonempty_facts.
  - reflexivity.
  - intros H. unfold ClarificationBox_answerDisabled in H.
    apply orb_false_iff in H as [H1 H2]. split; [exact H1|].
    unfold ClarificationBox_submit. now rewrite H2.
Qed.

Lemma ClarificationBox_submit_spec_witness :
  ClarificationBox_submit isSpace " yearly revenue  " = (Some "yearly revenue", "").
Proof.
  exact (proj2 (proj2 (proj2 (ClarificationBox_submit_spec isSpace false
                                " yearly revenue  ")) eq_refl)).
Defined.

(** ** The controls of ChatContainer *)

Lemma step_submitQuery_one (w : World) (d : Draws) (prompt : string) :
  inflight w = [] ->
  exists p, inflight (step w (CallSubmitQuery d prompt None)) = [p]
            /\ loading (hook (step w (CallSubmitQuery d prompt None))) = true.
Proof.
  intros H. rewrite step_submitQuery. cbn [inflight hook]. rewrite H.
  eexists. split; reflexivity.
Qed.

Lemma step_submitClarification_one (w : World) (d : Draws) (ans : string) :
  inflight w = [] -> loading (hook w) = false ->
  let w' := step w (CallSubmitClarification d ans) in
  (inflight w' = [] /\ loading (hook w') = false)
  \/ (exists p, inflight w' = [p] /\ loading (hook w') = true).
Proof.
  intros Hi Hl w'. subst w'.
  destruct (step_call_hook w (CallSubmitClarification d ans))
    as [(c & req & -> & _)|[Hh Hin]].
  - right. unfold begins. cbn [inflight hook loading]. rewrite Hi.
    eexists. split; reflexivity.
  - left. now rewrite Hh, Hin.
Qed.

Lemma if_guard {A} (P : A -> Prop) (b : bool) (x y : A) :
  P x -> (b = false -> P y) -> P (if b then x else y).
Proof. destruct b; auto. Qed.

Lemma uiStep_one_at_a_time (ws : ascii -> bool) (w : World) (e : UiEvent) :
  (inflight w = [] /\ loading (hook w) = false)
  \/ (exists p, inflight w = [p] /\ loading (hook w) = true) ->
  (inflight (uiStep ws w e) = [] /\ loading (hook (uiStep ws w e)) = false)
  \/ (exists p, inflight (uiStep ws w e) = [p] /\ loading (hook (uiStep ws w e)) = true).
Proof.
  set (J := fun w' : World =>
              (inflight w' = [] /\ loading (hook w') = false)
              \/ (exists p, inflight w' = [p] /\ loading (hook w') = true)).
  change (J w -> J (uiStep ws w e)). intros Hw.
  assert (Hidle : loading (hook w) = false -> inflight w = []).
  { intros Hl. destruct Hw as [[Hi _]|(p & _ & Hl')]; [exact Hi|congruence]. }
  assert (Hquery : forall d r, loading (hook w) = false -> J (submitted w d r)).
  { intros d r Hl. unfold submitted. destruct (fst r); [|exact Hw].
    right. now apply step_submitQuery_one, Hidle. }
  assert (Hclar : forall d r, loading (hook w) = false -> J (clarified w d r)).
  { intros d r Hl. unfold clarified. destruct (fst r); [|exact Hw].
    apply step_submitClarification_one; [now apply Hidle|exact Hl]. }
  destruct e as [d value key shiftKey|d value|d ans key|d ans| |k o]; cbn [uiStep].
  - apply (if_guard J); [exact Hw|]. unfold ChatInput_textareaDisabled. intros Hg.
    apply orb_false_iff in Hg as [Hl _]. now apply Hquery.
  - apply (if_guard J); [exact Hw|]. unfold ChatInput_sendDisabled. intros Hg.
    apply orb_false_iff in Hg as [Hg _]. apply orb_false_iff in Hg as [_ Hl].
    now apply Hquery.
  - apply (if_guard J); [exact Hw|]. intros Hg.
    apply orb_false_iff in Hg as [_ Hl]. now apply Hclar.
  - apply (if_guard J); [exact Hw|]. unfold ClarificationBox_answerDisabled. intros Hg.
    apply orb_false_iff in Hg as [_ Hg]. apply orb_false_iff in Hg as [Hl _].
    now apply Hclar.
  - destruct (messages (state (hook w))); exact Hw.
  - cbn [step]. destruct (nth_error (inflight w) k) as [p|] eqn:Hk; [|exact Hw].
    left. cbn [inflight hook]. split.
    + destruct Hw as [[Hi _]|(q & Hi & _)]; rewrite Hi in Hk |- *.
      * destruct k; discriminate.
      * destruct k as [|k]; [reflexivity|]. destruct k; discriminate.
    + destruct o; reflexivity.
Qed.

(** X12. Through the chat input, the clarification boxes and the Clear
    button, with outcomes arriving at any time, at most one request is
    awaited at any moment, and [loading] is true exactly while one is. *)
Theorem ui_one_request_at_a_time (ws : ascii -> bool) (es : list UiEvent) :
  let w := uiRun ws es initialWorld in
  (inflight w = [] /\ loading (hook w) = false)
  \/ (exists p, inflight w = [p] /\ loading (hook w) = true).
Proof.
  intros w. subst w.
  assert (H0 : (inflight initialWorld = [] /\ loading (hook initialWorld) = false)
               \/ (exists p, inflight initialWorld = [p]
                             /\ loading (hook initialWorld) = true))
    by (left; split; reflexivity).
  revert H0. generalize initialWorld.
  induction es as [|e es IH]; intros w Hw; [exact Hw|].
  unfold uiRun. cbn [fold_left]. apply IH. now apply uiStep_one_at_a_time.
Qed.

(** X13. While a clarification is pending the chat input sends nothing,
    by key or by button. If moreover no message shows a clarification box,
    which is what a response with status "clarification_required" and no
    such sub-answer leaves when none was shown before, the clarification
    controls send nothing either: only Clear and arriving outcomes change
    the world. *)
Theorem ui_pending_clarification_blocks (ws : ascii -> bool) (w : World) :
  hasPendingClarification (hook w) = true ->
  (forall d value key shiftKey, uiStep ws w (InputKey d value key shiftKey) = w)
  /\ (forall d value, uiStep ws w (InputSend d value) = w)
  /\ (showsClarificationBox (hook w) = false ->
      (forall d ans key, uiStep ws w (BoxKey d ans key) = w)
      /\ (forall d ans, uiStep ws w (BoxAnswer d ans) = w)).
Proof.
  intros Hp. cbn [uiStep]. rewrite Hp.
  unfold ChatInput_textareaDisabled, ChatInput_sendDisabled, ChatInput_blocked.
  repeat split.
  - intros. now destruct (loading (hook w)).
  - intros. destruct (trim ws value =? ""); [reflexivity|].
    now destruct (loading (hook w)).
  - intros. now rewrite H.
  - intros. now rewrite H.
Qed.

Lemma ui_pending_clarification_blocks_witness :
  let w := uiRun isSpace [InputSend noDraws "revenue";
                          Arrives 0 (Fulfilled unmatchedClarification)] initialWorld in
  hasPendingClarification (hook w) = true
  /\ inflight w = []
  /\ uiStep isSpace w (InputSend clashingDraws "revenue of 2023") = w
  /\ uiStep isSpace w (BoxAnswer clashingDraws "2023") = w.
Proof.
  intros w.
  destruct (ui_pending_clarification_blocks isSpace w eq_refl) as (_ & H2 & H3).
  split; [reflexivity|]. split; [reflexivity|]. split; [apply H2|].
  now apply (proj2 (H3 eq_refl)).
Defined.

(** ** QueryBlock *)

Lemma subAnswerElement_cases (l : bool) (sa : SubAnswer) (i : nat) :
  (exists q t, subAnswerElement l sa i = ClarificationBox i q t l)
  \/ subAnswerElement l sa i = SubAnswerCard i sa.
Proof.
  unfold subAnswerElement. destruct (sa_status sa =? "clarification_required"); eauto.
Qed.

Lemma mapi_subAnswerElement_In (l : bool) (sas : list SubAnswer) (n : nat) (e : Element) :
  In e (mapi (subAnswerElement l) n sas) ->
  (exists i q t, e = ClarificationBox i q t l) \/ (exists i sa, e = SubAnswerCard i sa).
Proof.
  revert n. induction sas as [|sa sas IH]; intros n; simpl; [intros []|].
  intros [<-|H]; [|eauto].
  destruct (subAnswerElement_cases l sa n) as [(q & t & ->)| ->]; eauto.
Qed.

(** X14. The loading bar is rendered for exactly the assistant messages
    with [isLoading] true and no response: a new placeholder renders it and
    nothing else, and a message that has a response never renders it. *)
Theorem QueryBlock_loading_bar (m : ChatMessage) (l : bool) :
  (forall label,
      In (LoadingBar label) (QueryBlock m l) <->
      label = "Running RAG pipeline…" /\ role m = assistant
      /\ isLoading m = Some true /\ response m = None)
  /\ (forall i now, QueryBlock (loadingMessage i now) l = [LoadingBar "Running RAG pipeline…"]).
Proof.
  split; [|reflexivity].
  intros label. unfold QueryBlock, stillLoading. split.
  - destruct (role m); [intros [H|[]]; discriminate|].
    destruct (response m) as [r|].
    + intros H. apply in_app_or in H as [H|H].
      { destruct (_ && _); [destruct H as [H|[]]; discriminate|destruct H]. }
      apply in_app_or in H as [H|[H|[]]]; [|discriminate].
      apply mapi_subAnswerElement_In in H as [(i & q & t & H)|(i & sa & H)]; discriminate.
    + destruct (isLoading m) as [[|]|]; [|intros []|intros []].
      intros [[= <-]|[]]. now repeat split.
  - intros (-> & -> & -> & ->). now left.
Qed.

Lemma QueryBlock_loading_bar_witness :
  In (LoadingBar "Running RAG pipeline…") (QueryBlock (loadingMessage "9x3k1q7b" 5%Z) false).
Proof.
  apply (proj1 (QueryBlock_loading_bar (loadingMessage "9x3k1q7b" 5%Z) false)).
  repeat split.
Defined.

(** X15. The failure card is rendered for exactly the assistant messages
    whose response has status "failure" and no sub-answer, and it then
    shows the [error_message] of the response when that is a non-empty
    string, "Pipeline failed to produce a response." when the response has
    none, and the card's own default text when it is the empty string. *)
Theorem QueryBlock_failure_card (m : ChatMessage) (l : bool) (shown : string) :
  In (FailureCard shown) (QueryBlock m l) <->
  role m = assistant
  /\ exists r, response m = Some r /\ status r = "failure" /\ sub_answers r = []
               /\ shown = match error_message r with
                          | None => "Pipeline failed to produce a response."
                          | Some e =>
                              if e =? ""
                              then "I couldn't find relevant information in the indexed documents."
                              else e
                          end.
Proof.
  unfold QueryBlock. split.
  - destruct (role m); [intros [H|[]]; discriminate|].
    destruct (response m) as [r|]; [|destruct (stillLoading m); [intros [H|[]]; discriminate|intros []]].
    intros H. split; [reflexivity|]. exists r. split; [reflexivity|].
    apply in_app_or in H as [H|H].
    + destruct (status r =? "failure") eqn:Hs; [|destruct H].
      destruct (List.length (sub_answers r) =? 0)%nat eqn:Hn; [|destruct H].
      destruct H as [[= <-]|[]].
      apply String.eqb_eq in Hs. apply Nat.eqb_eq in Hn.
      split; [exact Hs|]. split; [now apply length_zero_iff_nil|].
      unfold FailureCard_text. now destruct (error_message r).
    + apply in_app_or in H as [H|[H|[]]]; [|discriminate].
      apply mapi_subAnswerElement_In in H as [(i & q & t & H)|(i & sa & H)]; discriminate.
  - intros (-> & r & -> & Hs & Hn & ->). rewrite Hs, Hn. cbn [List.length].
    left. unfold FailureCard_text. now destruct (error_message r).
Qed.

Lemma QueryBlock_failure_card_witness :
  In (FailureCard "I couldn't find relevant information in the indexed documents.")
     (QueryBlock {| id := "9x3k1q7b"; role := assistant; content := ""; timestamp := 5%Z;
                    isLoading := Some false;
                    response := Some {| conversation_id := "c1"; status := "failure";
                                        sub_answers := []; error_message := Some "" |} |}
                 false).
Proof.
  apply (proj2 (QueryBlock_failure_card _ false _)).
  split; [reflexivity|]. eexists. repeat split.
Defined.

(** X16. A request that was rejected is not rendered as a failure card:
    an assistant message hit by [failMessage] renders one sub-answer card,
    for the synthesized sub-answer that carries the error text, and the
    status line, with no badge and with the first six characters of the
    previous conversation id when there is a non-empty one. *)
Theorem QueryBlock_after_failMessage
        (h : Hook) (i errText : string) (k : nat) (m : ChatMessage) (l : bool) :
  nth_error (messages (state h)) k = Some m ->
  id m = i -> role m = assistant ->
  exists m',
    nth_error (messages (state (exec (failMessage i errText) h))) k = Some m'
    /\ QueryBlock m' l =
       [ SubAnswerCard 0 {| query := ""; sa_status := "failed"; answer := errText;
                            citations := []; clarification_question := None |};
         StatusLine false None (timestamp m)
           (match conversationId (state h) with
            | Some c => if c =? "" then None else Some (substring 0 6 c)
            | None => None
            end) ].
Proof.
  intros Hk Hid Hrole. rewrite exec_failMessage. cbn [state failState messages].
  rewrite nth_error_map, Hk. cbn [option_map]. eexists. split; [reflexivity|].
  unfold failOne. apply String.eqb_eq in Hid. rewrite Hid.
  unfold QueryBlock. cbn [role response]. rewrite Hrole.
  cbn [failureResponse status sub_answers conversation_id error_message].
  cbn [String.eqb Ascii.eqb Bool.eqb List.length Nat.eqb andb app mapi timestamp].
  unfold subAnswerElement, failedSubAnswer. cbn.
  now destruct (conversationId (state h)).
Qed.

Lemma QueryBlock_after_failMessage_witness :
  let h := exec (submitQuery noDraws "What is HyDE?" None) initialHook in
  exists m',
    nth_error (messages (state (exec (failMessage "9x3k1q7b" "timeout") h))) 1 = Some m'
    /\ QueryBlock m' false =
       [ SubAnswerCard 0 {| query := ""; sa_status := "failed"; answer := "timeout";
                            citations := []; clarification_question := None |};
         StatusLine false None 1700000000001%Z None ].
Proof.
  intros h.
  exact (QueryBlock_after_failMessage h "9x3k1q7b" "timeout" 1
           (loadingMessage "9x3k1q7b" 1700000000001%Z) false eq_refl eq_refl eq_refl).
Defined.

Lemma firstBoxIndex_mapi (l : bool) (sas : list SubAnswer) (n : nat) (rest : list Element) :
  firstBoxIndex rest = None ->
  findIndexFrom isClarification (Z.of_nat n) sas
  = match firstBoxIndex (mapi (subAnswerElement l) n sas ++ rest) with
    | Some j => Z.of_nat j
    | None => (-1)%Z
    end.
Proof.
  intros Hrest. revert n. induction sas as [|sa sas IH]; intros n; cbn [mapi app].
  - now rewrite Hrest.
  - cbn [findIndexFrom]. unfold subAnswerElement at 1, isClarification at 1.
    destruct (sa_status sa =? "clarification_required"); cbn [firstBoxIndex].
    + reflexivity.
    + rewrite <- IH. f_equal. lia.
Qed.

(** X17. The index [resolveMessage] stores for a response with status
    "clarification_required" is the sub-answer index of the first
    clarification box that the resolved message renders, and [-1] when it
    renders none. *)
Theorem pending_index_is_first_box
        (i : string) (r : QueryResponse) (s : ConversationState) (m : ChatMessage) (l : bool) :
  role m = assistant -> id m = i ->
  status r = "clarification_required" ->
  pendingClarificationIndex (resolveState i r s)
  = Some (match firstBoxIndex (QueryBlock (resolveOne i r m) l) with
          | Some j => Z.of_nat j
          | None => (-1)%Z
          end).
Proof.
  intros Hrole Hid Hst. unfold resolveState. cbn [pendingClarificationIndex].
  rewrite Hst, String.eqb_refl. f_equal.
  unfold resolveOne. apply String.eqb_eq in Hid. rewrite Hid.
  unfold QueryBlock. cbn [role response]. rewrite Hrole, Hst.
  change ("clarification_required" =? "failure") with false. cbn [andb app].
  unfold findIndex. now apply (firstBoxIndex_mapi l (sub_answers r) 0).
Qed.

Lemma pending_index_is_first_box_witness :
  pendingClarificationIndex
    (resolveState "9x3k1q7b"
       {| conversation_id := "c1"; status := "clarification_required";
          sub_answers := sub_answers answeredResponse ++ sub_answers anonymousClarification;
          error_message := None |} emptyState)
  = Some 1%Z.
Proof.
  exact (pending_index_is_first_box "9x3k1q7b"
           {| conversation_id := "c1"; status := "clarification_required";
              sub_answers := sub_answers answeredResponse
                             ++ sub_answers anonymousClarification;
              error_message := None |} emptyState
           (loadingMessage "9x3k1q7b" 5%Z) false eq_refl eq_refl eq_refl).
Defined.

(** ** [makeId] *)

(** X18. An id has at most eight characters: exactly eight when the
    base-36 text of the random number has ten characters or more, and as
    many as follow the first two otherwise, none for a text of two or less
    such as "0". *)
Theorem makeId_length (rnd : string) :
  String.length (makeId rnd) = Nat.min 8 (String.length rnd - 2)
  /\ ((10 <= String.length rnd)%nat -> String.length (makeId rnd) = 8%nat)
  /\ ((String.length rnd <= 2)%nat -> makeId rnd = "").
Proof.
  unfold makeId. rewrite substring_length. split; [reflexivity|]. split.
  - lia.
  - intros H. destruct rnd as [|a [|b [|c rnd]]]; try reflexivity.
    simpl in H. lia.
Qed.

Lemma makeId_length_witness :
  String.length (makeId "0.4fzyo82mvyr") = 8%nat /\ makeId "0" = "".
Proof.
  split.
  - apply (proj1 (proj2 (makeId_length "0.4fzyo82mvyr"))). simpl. lia.
  - apply (proj2 (proj2 (makeId_length "0"))). simpl. lia.
Defined.
